(** * TinyLink: the link lifecycle of the URL shortener

    A shallow embedding of [src/models/LinkModel.js] (the Mongoose schema of
    the [links] collection), [src/services/link.service.js] (the
    [LinkService] class) and the redirect handler of
    [src/controllers/link.controller.js].

    The service is [async] code over a MongoDB collection: between two
    [await]s a request runs alone, and every [await] is one operation of the
    database.  A request is therefore embedded as a tree of database
    operations ([Prog]); the tree is run either to completion ([run], one
    request at a time) or one operation at a time under a schedule ([exec],
    several requests in flight). *)

From Stdlib Require Import String Ascii List ZArith Bool Arith Lia.
From Stdlib Require Import DecimalString.
Import ListNotations.
Open Scope string_scope.
Open Scope Z_scope.

(** ** Documents of the [links] collection *)

(** A JavaScript [Date], as milliseconds since the epoch. *)
Definition Date := Z.

(** The [_id] every Mongoose document carries. *)
Definition ObjectId := nat.

(** [linkSchema]: the five declared paths, and the implicit [_id].
    [clicks] is a JavaScript Number holding an integer. *)
Record Link : Type := mkLink {
  _id : ObjectId;
  shortCode : string;
  originalUrl : string;
  clicks : Z;
  lastClicked : option Date;
  createdAt : Date
}.

(** The projection ['shortCode originalUrl clicks lastClicked'] of
    [getAllLinks] ([_id] is always included by Mongoose). *)
Record LinkSummary : Type := mkSummary {
  sum_id : ObjectId;
  sum_shortCode : string;
  sum_originalUrl : string;
  sum_clicks : Z;
  sum_lastClicked : option Date
}.

Definition project (d : Link) : LinkSummary :=
  mkSummary (_id d) (shortCode d) (originalUrl d) (clicks d) (lastClicked d).

(** The failures a request can end with.  The first four are the errors the
    service throws, named after their [MESSAGES]; the other three are the
    rejections of [save()]: by the unique index on [shortCode] (MongoDB
    error E11000), by the schema validators, and for an update that matches
    no document. *)
Inductive Error : Type :=
| INVALID_URL
| INVALID_CODE
| CODE_EXISTS
| LINK_NOT_FOUND
| DuplicateKey
| ValidationError
| DocumentNotFound.

Inductive Result (A : Type) : Type :=
| OK (a : A)
| Err (e : Error).
Arguments OK {A} a.
Arguments Err {A} e.

(** ** The short-code format *)

Definition is_digit (c : ascii) : bool :=
  let n := nat_of_ascii c in (48 <=? n)%nat && (n <=? 57)%nat.

Definition is_upper (c : ascii) : bool :=
  let n := nat_of_ascii c in (65 <=? n)%nat && (n <=? 90)%nat.

Definition is_lower (c : ascii) : bool :=
  let n := nat_of_ascii c in (97 <=? n)%nat && (n <=? 122)%nat.

Definition is_alnum (c : ascii) : bool :=
  is_upper c || is_lower c || is_digit c.

(** Modelled from the spec: [CODE_REGEX] of [src/constants/regex.js], which
    is not among the sources.  The spec (section 3) and the comments of
    [createLink] and of [linkSchema] give the format: 6 to 8 characters,
    each an upper-case letter, a lower-case letter or a digit.
    [CODE_REGEX_test s] is [CODE_REGEX.test(s)]. *)
Definition CODE_REGEX_test (s : string) : bool :=
  (6 <=? String.length s)%nat && (String.length s <=? 8)%nat
  && forallb is_alnum (list_ascii_of_string s).

(** ** The collection and its operations *)

(** The database: the documents of the collection, oldest first, and the
    supply of fresh [ObjectId]s. *)
Record World : Type := mkWorld {
  links : list Link;
  next_oid : ObjectId
}.

Definition empty_world : World := mkWorld [] 0%nat.

Definition has_code (code : string) (d : Link) : bool :=
  String.eqb (shortCode d) code.

Definition has_id (i : ObjectId) (d : Link) : bool :=
  Nat.eqb (_id d) i.

(** [Link.findOne({ shortCode: code })] *)
Definition Link_findOne (code : string) (w : World) : option Link :=
  find (has_code code) (links w).

(** [Link.find({}, 'shortCode originalUrl clicks lastClicked')] *)
Definition Link_find (w : World) : list LinkSummary :=
  map project (links w).

(** [new Link({ shortCode, originalUrl })]: the schema defaults
    ([clicks: 0], [lastClicked: null], [createdAt: Date.now]) and a fresh
    [_id]. *)
Definition new_Link (code url : string) (now : Date) (w : World)
  : Link * World :=
  (mkLink (next_oid w) code url 0 None now,
   mkWorld (links w) (S (next_oid w))).

(** The validators of [linkSchema], run by [save()] before anything is
    written: [required] on both strings (an empty string fails it), and
    [minlength: 6], [maxlength: 8] on [shortCode]. *)
Definition validate (d : Link) : bool :=
  negb (String.eqb (shortCode d) "")
  && (6 <=? String.length (shortCode d))%nat
  && (String.length (shortCode d) <=? 8)%nat
  && negb (String.eqb (originalUrl d) "").

(** [save()] of a document made by [new Link]: validation, then one
    [insertOne], which the unique index on [shortCode] ([unique: true])
    rejects when a document with that code is present. *)
Definition save_new (d : Link) (w : World) : Result unit * World :=
  if negb (validate d) then (Err ValidationError, w)
  else if existsb (has_code (shortCode d)) (links w) then (Err DuplicateKey, w)
  else (OK tt, mkWorld (links w ++ [d]) (next_oid w)).

(** What [save()] writes for a loaded document whose [clicks] and
    [lastClicked] were assigned: [$set] of these two paths, with the values
    the in-memory document holds. *)
Definition set_modified (from stored : Link) : Link :=
  mkLink (_id stored) (shortCode stored) (originalUrl stored)
         (clicks from) (lastClicked from) (createdAt stored).

Fixpoint update_by_id (d : Link) (ds : list Link) : option (list Link) :=
  match ds with
  | [] => None
  | x :: rest =>
      if has_id (_id d) x then Some (set_modified d x :: rest)
      else option_map (cons x) (update_by_id d rest)
  end.

(** [save()] of a loaded document: one [updateOne({ _id }, { $set })];
    Mongoose rejects with [DocumentNotFoundError] when it matches nothing. *)
Definition save_modified (d : Link) (w : World) : Result unit * World :=
  match update_by_id d (links w) with
  | Some ds => (OK tt, mkWorld ds (next_oid w))
  | None => (Err DocumentNotFound, w)
  end.

Fixpoint remove_first (code : string) (ds : list Link) : list Link :=
  match ds with
  | [] => []
  | x :: rest => if has_code code x then rest else x :: remove_first code rest
  end.

(** [Link.findOneAndDelete({ shortCode: code })] *)
Definition Link_findOneAndDelete (code : string) (w : World)
  : option Link * World :=
  (Link_findOne code w, mkWorld (remove_first code (links w)) (next_oid w)).

(** The number of documents with a given code. *)
Definition count_code (code : string) (w : World) : nat :=
  List.length (filter (has_code code) (links w)).

(** ** Requests as trees of database operations *)

(** What a request does next: it returns, throws, or performs one operation
    and goes on with the answer.  [save()] is [SaveNew] on a document made
    by [new Link] and [SaveModified] on a document loaded from the
    collection, as Mongoose decides by the document's [isNew]. *)
Inductive Prog (A : Type) : Type :=
| Ret (a : A)
| Throw (e : Error)
| FindOne (code : string) (k : option Link -> Prog A)
| FindAll (k : list LinkSummary -> Prog A)
| NewLink (code url : string) (now : Date) (k : Link -> Prog A)
| SaveNew (d : Link) (k : unit -> Prog A)
| SaveModified (d : Link) (k : unit -> Prog A)
| FindOneAndDelete (code : string) (k : option Link -> Prog A).
Arguments Ret {A} a.
Arguments Throw {A} e.
Arguments FindOne {A} code k.
Arguments FindAll {A} k.
Arguments NewLink {A} code url now k.
Arguments SaveNew {A} d k.
Arguments SaveModified {A} d k.
Arguments FindOneAndDelete {A} code k.

Fixpoint bind {A B : Type} (p : Prog A) (f : A -> Prog B) : Prog B :=
  match p with
  | Ret a => f a
  | Throw e => Throw e
  | FindOne c k => FindOne c (fun r => bind (k r) f)
  | FindAll k => FindAll (fun r => bind (k r) f)
  | NewLink c u t k => NewLink c u t (fun r => bind (k r) f)
  | SaveNew d k => SaveNew d (fun r => bind (k r) f)
  | SaveModified d k => SaveModified d (fun r => bind (k r) f)
  | FindOneAndDelete c k => FindOneAndDelete c (fun r => bind (k r) f)
  end.

Declare Scope prog_scope.
Delimit Scope prog_scope with prog.
Notation "x <- p ;; q" := (bind p (fun x => q))
  (at level 61, p at next level, right associativity) : prog_scope.
Notation "'await' p ;; q" := (bind p (fun _ => q))
  (at level 61, p at next level, right associativity) : prog_scope.
Open Scope prog_scope.

(** A rejected [save()] throws in the awaiting request. *)
Definition resume {A : Type} (r : Result unit) (k : unit -> Prog A) : Prog A :=
  match r with
  | OK u => k u
  | Err e => Throw e
  end.

(** One database operation of a request. *)
Definition step {A : Type} (p : Prog A) (w : World) : Prog A * World :=
  match p with
  | Ret a => (Ret a, w)
  | Throw e => (Throw e, w)
  | FindOne c k => (k (Link_findOne c w), w)
  | FindAll k => (k (Link_find w), w)
  | NewLink c u t k => let (d, w') := new_Link c u t w in (k d, w')
  | SaveNew d k => let (r, w') := save_new d w in (resume r k, w')
  | SaveModified d k => let (r, w') := save_modified d w in (resume r k, w')
  | FindOneAndDelete c k =>
      let (r, w') := Link_findOneAndDelete c w in (k r, w')
  end.

(** A request run to its end with nothing in between. *)
Fixpoint run {A : Type} (p : Prog A) (w : World) : Result A * World :=
  match p with
  | Ret a => (OK a, w)
  | Throw e => (Err e, w)
  | FindOne c k => run (k (Link_findOne c w)) w
  | FindAll k => run (k (Link_find w)) w
  | NewLink c u t k => let (d, w') := new_Link c u t w in run (k d) w'
  | SaveNew d k =>
      match save_new d w with
      | (OK u, w') => run (k u) w'
      | (Err e, w') => (Err e, w')
      end
  | SaveModified d k =>
      match save_modified d w with
      | (OK u, w') => run (k u) w'
      | (Err e, w') => (Err e, w')
      end
  | FindOneAndDelete c k =>
      let (r, w') := Link_findOneAndDelete c w in run (k r) w'
  end.

Definition finished {A : Type} (p : Prog A) : bool :=
  match p with
  | Ret _ | Throw _ => true
  | _ => false
  end.

(** ** Requests in flight *)

Fixpoint set_nth {A : Type} (i : nat) (x : A) (l : list A) : list A :=
  match l, i with
  | [], _ => []
  | _ :: t, O => x :: t
  | y :: t, S j => y :: set_nth j x t
  end.

(** The request at position [i] performs its next operation.  [new Link]
    is not an [await]; as a turn of its own it touches nothing but the
    supply of [ObjectId]s. *)
Definition step_at {A : Type} (i : nat) (ps : list (Prog A)) (w : World)
  : list (Prog A) * World :=
  match nth_error ps i with
  | Some p => let (p', w') := step p w in (set_nth i p' ps, w')
  | None => (ps, w)
  end.

(** The requests advance in the order the schedule gives. *)
Fixpoint exec {A : Type} (schedule : list nat) (ps : list (Prog A)) (w : World)
  : list (Prog A) * World :=
  match schedule with
  | [] => (ps, w)
  | i :: rest => let (ps', w') := step_at i ps w in exec rest ps' w'
  end.

(** ** [LinkService] *)

(** [!customCode]: the argument is absent, or the empty string. *)
Definition falsy (customCode : option string) : bool :=
  match customCode with
  | None => true
  | Some c => String.eqb c ""
  end.

(** Step 2 of [createLink]: the custom code, or the generated one when the
    custom code is falsy. *)
Definition chosen_code (generated : string) (customCode : option string)
  : string :=
  if falsy customCode then generated
  else match customCode with
       | Some c => c
       | None => generated
       end.

Section LinkService.

(** [URL_parses s] holds when [new URL(s)] does not throw: the platform's
    URL parser. *)
Variable URL_parses : string -> bool.

(** [createLink(originalUrl, customCode)].  [generated] is what
    [generateCode()] returns if it is called, [now] the clock. *)
Definition createLink (generated : string) (now : Date)
    (originalUrl : string) (customCode : option string) : Prog Link :=
  if negb (URL_parses originalUrl) then Throw INVALID_URL
  else
    let shortCode := chosen_code generated customCode in
    if negb (CODE_REGEX_test shortCode) then Throw INVALID_CODE
    else
      existingLink <- FindOne shortCode Ret ;;
      match existingLink with
      | Some _ => Throw CODE_EXISTS
      | None =>
          newLink <- NewLink shortCode originalUrl now Ret ;;
          await SaveNew newLink Ret ;;
          Ret newLink
      end.

End LinkService.

(** [getAllLinks()] *)
Definition getAllLinks : Prog (list LinkSummary) :=
  FindAll Ret.

(** [getLinkByCode(code)] *)
Definition getLinkByCode (code : string) : Prog (option Link) :=
  FindOne code Ret.

(** [link.clicks += 1; link.lastClicked = new Date()] on the in-memory
    document. *)
Definition clicked (now : Date) (link : Link) : Link :=
  mkLink (_id link) (shortCode link) (originalUrl link)
         (clicks link + 1) (Some now) (createdAt link).

(** [incrementClicks(link)] *)
Definition incrementClicks (now : Date) (link : Link) : Prog Link :=
  let link := clicked now link in
  await SaveModified link Ret ;;
  Ret link.

(** [deleteLink(code)] *)
Definition deleteLink (code : string) : Prog Link :=
  link <- FindOneAndDelete code Ret ;;
  match link with
  | None => Throw LINK_NOT_FOUND
  | Some l => Ret l
  end.

(** ** [LinkController.redirectLink] *)

Inductive Response : Type :=
| Redirect (status : Z) (location : string)
| Send (status : Z) (body : string).

(** The [try] block of [redirectLink].  The handler redirects to
    [link.originalUrl], [link] being the object that [incrementClicks]
    updated in place and returned. *)
Definition redirectLink_try (now : Date) (code : string) : Prog Response :=
  link <- getLinkByCode code ;;
  match link with
  | None => Ret (Send 404 "Not Found")
  | Some l =>
      l' <- incrementClicks now l ;;
      Ret (Redirect 302 (originalUrl l'))
  end.

(** The [catch] block of [redirectLink]. *)
Definition redirectLink_catch (r : Result Response) : Response :=
  match r with
  | OK resp => resp
  | Err _ => Send 500 "Server error"
  end.

(** [redirectLink(req, res)] for [req.params.code = code], run alone: the
    response sent and the collection left. *)
Definition redirectLink (now : Date) (code : string) (w : World)
  : Response * World :=
  let (r, w') := run (redirectLink_try now code) w in
  (redirectLink_catch r, w').

(** ** One request at a time *)

(** The five operations of the service, with what the platform supplies to
    each call: the generator's output and the clock. *)
Inductive Request : Type :=
| Create (generated : string) (now : Date) (originalUrl : string)
         (customCode : option string)
| GetAll
| GetByCode (code : string)
| Resolve (now : Date) (code : string)
| Delete (code : string).

(** The collection after a request has run alone. *)
Definition perform (URL_parses : string -> bool) (r : Request) (w : World)
  : World :=
  match r with
  | Create g t u c => snd (run (createLink URL_parses g t u c) w)
  | GetAll => snd (run getAllLinks w)
  | GetByCode c => snd (run (getLinkByCode c) w)
  | Resolve t c => snd (redirectLink t c w)
  | Delete c => snd (run (deleteLink c) w)
  end.

Fixpoint perform_all (URL_parses : string -> bool) (rs : list Request)
    (w : World) : World :=
  match rs with
  | [] => w
  | r :: rest => perform_all URL_parses rest (perform URL_parses r w)
  end.

(** [redirectLink] called once for each of [times], every call run to its
    end before the next starts. *)
Fixpoint resolve_each (times : list Date) (code : string) (w : World)
  : World :=
  match times with
  | [] => w
  | t :: rest => resolve_each rest code (snd (redirectLink t code w))
  end.

(** What the unique index and [createLink] maintain: one document per code,
    one per [_id], every [_id] already handed out, every code of the format. *)
Record wf (w : World) : Prop := mkWf {
  wf_codes : NoDup (map shortCode (links w));
  wf_ids : NoDup (map _id (links w));
  wf_fresh : Forall (fun d => (_id d < next_oid w)%nat) (links w);
  wf_format : Forall (fun d => CODE_REGEX_test (shortCode d) = true) (links w)
}.

(** ** What a schedule lets one observe *)

Inductive Event : Type :=
| EvFindOne (code : string) (found : option Link)
| EvFindAll
| EvNewLink (d : Link)
| EvSaveNew (d : Link) (r : Result unit)
| EvSaveModified (d : Link) (r : Result unit)
| EvFindOneAndDelete (code : string) (found : option Link)
| EvIdle.

Definition observe {A : Type} (p : Prog A) (w : World) : Event :=
  match p with
  | Ret _ | Throw _ => EvIdle
  | FindOne c _ => EvFindOne c (Link_findOne c w)
  | FindAll _ => EvFindAll
  | NewLink c u t _ => EvNewLink (fst (new_Link c u t w))
  | SaveNew d _ => EvSaveNew d (fst (save_new d w))
  | SaveModified d _ => EvSaveModified d (fst (save_modified d w))
  | FindOneAndDelete c _ => EvFindOneAndDelete c (Link_findOne c w)
  end.

(** The operations a schedule performs, each with the request that issued it
    and the answer of the database. *)
Fixpoint trace {A : Type} (schedule : list nat) (ps : list (Prog A))
    (w : World) : list (nat * Event) :=
  match schedule with
  | [] => []
  | i :: rest =>
      let ev := match nth_error ps i with
                | Some p => observe p w
                | None => EvIdle
                end in
      let (ps', w') := step_at i ps w in
      (i, ev) :: trace rest ps' w'
  end.

(** The number of turns a schedule gives to request [i]. *)
Definition turns (i : nat) (schedule : list nat) : nat :=
  count_occ Nat.eq_dec schedule i.

(** Of two requests, one returned a document and the other was refused
    because the code is taken. *)
Definition one_winner (d : Link) (ps : list (Prog Link)) : Prop :=
  exists e, (ps = [Ret d; Throw e] \/ ps = [Throw e; Ret d])
            /\ (e = CODE_EXISTS \/ e = DuplicateKey).

(** Request [i] was told that no document has [code] and, in a later
    operation of its own, asked for a document with that code to be
    inserted. *)
Definition checks_then_inserts (i : nat) (code : string)
    (tr : list (nat * Event)) : Prop :=
  exists (before after : list (nat * Event)) d r,
    tr = (before ++ after)%list
    /\ In (i, EvFindOne code None) before
    /\ In (i, EvSaveNew d r) after
    /\ shortCode d = code.

(** Two [createLink] calls raced under [schedule] the way the spec asks of
    [insertUnique]: one winner, one document, and no existence check
    separate from the insert. *)
Definition atomic_insert_if_absent (code : string) (schedule : list nat)
    (ps : list (Prog Link)) (w : World) : Prop :=
  (exists d, one_winner d (fst (exec schedule ps w)))
  /\ count_code code (snd (exec schedule ps w)) = 1%nat
  /\ forall i, ~ checks_then_inserts i code (trace schedule ps w).

(** ** [createLink] phase by phase *)

(** Where a [createLink] call whose arguments passed the two format checks
    stands: before [findOne], before [new Link], before [save()], or at its
    end. *)
Inductive Phase : Type :=
| Checking
| Building
| Inserting (d : Link)
| Won (d : Link)
| Lost (e : Error).

Definition create_from (code url : string) (now : Date) (ph : Phase)
  : Prog Link :=
  match ph with
  | Checking =>
      existingLink <- FindOne code Ret ;;
      match existingLink with
      | Some _ => Throw CODE_EXISTS
      | None =>
          newLink <- NewLink code url now Ret ;;
          await SaveNew newLink Ret ;;
          Ret newLink
      end
  | Building =>
      newLink <- NewLink code url now Ret ;;
      await SaveNew newLink Ret ;;
      Ret newLink
  | Inserting d => await SaveNew d Ret ;; Ret d
  | Won d => Ret d
  | Lost e => Throw e
  end.

Definition phase_step (code url : string) (now : Date) (ph : Phase)
    (w : World) : Phase * World :=
  match ph with
  | Checking =>
      (match Link_findOne code w with
       | Some _ => Lost CODE_EXISTS
       | None => Building
       end, w)
  | Building => let (d, w') := new_Link code url now w in (Inserting d, w')
  | Inserting d =>
      match save_new d w with
      | (OK _, w') => (Won d, w')
      | (Err e, w') => (Lost e, w')
      end
  | Won d => (Won d, w)
  | Lost e => (Lost e, w)
  end.

(** The operations a call still has to perform, at most. *)
Definition remaining (ph : Phase) : nat :=
  match ph with
  | Checking => 3
  | Building => 2
  | Inserting _ => 1
  | Won _ | Lost _ => 0
  end.

Definition phase_ok (code url : string) (ph : Phase) : Prop :=
  match ph with
  | Inserting d =>
      shortCode d = code /\ originalUrl d = url /\ validate d = true
  | Won d => shortCode d = code /\ originalUrl d = url
  | Lost e => e = CODE_EXISTS \/ e = DuplicateKey
  | Checking | Building => True
  end.

Definition pending (ph : Phase) : Prop :=
  match ph with
  | Won _ | Lost _ => False
  | _ => True
  end.

Definition not_won (ph : Phase) : Prop :=
  match ph with
  | Won _ => False
  | _ => True
  end.

(** The invariant of two racing calls for [code], started on a collection
    [ds0] that has no document with it: either nobody has finished and the
    collection is as it was, or exactly one call has won and its document is
    the only one added. *)
Definition race_inv (code u1 u2 : string) (ds0 : list Link)
    (s : Phase * Phase) (w : World) : Prop :=
  phase_ok code u1 (fst s) /\ phase_ok code u2 (snd s)
  /\ ((pending (fst s) /\ pending (snd s) /\ links w = ds0)
      \/ (exists d, fst s = Won d /\ not_won (snd s)
                    /\ links w = (ds0 ++ [d])%list)
      \/ (exists d, snd s = Won d /\ not_won (fst s)
                    /\ links w = (ds0 ++ [d])%list)).

(** Two calls for one code, as phases: the call at position 0 or 1 performs
    its next operation. *)
Definition race_step (code u1 : string) (n1 : Date) (u2 : string) (n2 : Date)
    (i : nat) (s : Phase * Phase) (w : World) : (Phase * Phase) * World :=
  match i with
  | O => let (ph, w') := phase_step code u1 n1 (fst s) w in ((ph, snd s), w')
  | S O => let (ph, w') := phase_step code u2 n2 (snd s) w in ((fst s, ph), w')
  | _ => (s, w)
  end.

Fixpoint race (code u1 : string) (n1 : Date) (u2 : string) (n2 : Date)
    (schedule : list nat) (s : Phase * Phase) (w : World)
  : (Phase * Phase) * World :=
  match schedule with
  | [] => (s, w)
  | i :: rest =>
      let (s', w') := race_step code u1 n1 u2 n2 i s w in
      race code u1 n1 u2 n2 rest s' w'
  end.

Definition race_pool (code u1 : string) (n1 : Date) (u2 : string) (n2 : Date)
    (s : Phase * Phase) : list (Prog Link) :=
  [create_from code u1 n1 (fst s); create_from code u2 n2 (snd s)].

(** ** Worked inputs *)

(** A stand-in for the platform's URL parser on the inputs of the worked
    examples: it accepts what starts with [http://] or [https://]. *)
Definition accepts_http (s : string) : bool :=
  String.prefix "http://" s || String.prefix "https://" s.

Definition example_link : Link :=
  mkLink 0%nat "abc123" "https://example.com" 0 None 5.

Definition example_world : World := mkWorld [example_link] 1%nat.

(** ** [STATUS], [MESSAGES] and the replies of the handlers *)

Module STATUS.
Definition OK : Z := 200.
Definition CREATED : Z := 201.
Definition NO_CONTENT : Z := 204.
Definition BAD_REQUEST : Z := 400.
Definition NOT_FOUND : Z := 404.
Definition CONFLICT : Z := 409.
Definition INTERNAL_SERVER_ERROR : Z := 500.
End STATUS.

Module MESSAGES.
Definition LINK_CREATED : string := "Link created successfully".
Definition LINK_DELETED : string := "Link deleted successfully".
Definition LINK_NOT_FOUND : string := "Link not found".
Definition CODE_EXISTS : string := "Short code already exists".
Definition INVALID_URL : string := "Invalid URL provided".
Definition INVALID_CODE : string := "Invalid short code format".
Definition SERVER_ERROR : string := "Internal server error".
End MESSAGES.

(** [error.message]: the text the service gave to [new Error], or the text
    of the database driver, which is none of the [MESSAGES]. *)
Inductive ErrorText : Type :=
| Text (s : string)
| DriverText (e : Error).

Definition message (e : Error) : ErrorText :=
  match e with
  | INVALID_URL => Text MESSAGES.INVALID_URL
  | INVALID_CODE => Text MESSAGES.INVALID_CODE
  | CODE_EXISTS => Text MESSAGES.CODE_EXISTS
  | LINK_NOT_FOUND => Text MESSAGES.LINK_NOT_FOUND
  | DuplicateKey | ValidationError | DocumentNotFound => DriverText e
  end.

(** [error.message === m] *)
Definition message_is (t : ErrorText) (m : string) : bool :=
  match t with
  | Text s => String.eqb s m
  | DriverText _ => false
  end.

(** What [res.json] or [res.send] is given. *)
Inductive Body : Type :=
| JsonCreated (code url : string)
| JsonStats (code url : string) (count : Z) (last : option Date)
| JsonLinks (ls : list LinkSummary)
| JsonError (error : ErrorText)
| NoBody.

Record Reply : Type := mkReply {
  status : Z;
  body : Body
}.

(** ** [LinkController], the JSON handlers *)

(** What [createLink] answers to the outcome of the service call: the
    [try] block on success, the [catch] block on an error. *)
Definition createLink_reply (r : Result Link) : Reply :=
  match r with
  | OK link =>
      mkReply STATUS.CREATED (JsonCreated (shortCode link) (originalUrl link))
  | Err error =>
      if message_is (message error) MESSAGES.CODE_EXISTS
      then mkReply STATUS.CONFLICT (JsonError (message error))
      else mkReply STATUS.BAD_REQUEST (JsonError (message error))
  end.

Definition getAllLinks_reply (r : Result (list LinkSummary)) : Reply :=
  match r with
  | OK ls => mkReply STATUS.OK (JsonLinks ls)
  | Err _ =>
      mkReply STATUS.INTERNAL_SERVER_ERROR
              (JsonError (Text MESSAGES.SERVER_ERROR))
  end.

Definition getLinkStats_reply (r : Result (option Link)) : Reply :=
  match r with
  | OK None =>
      mkReply STATUS.NOT_FOUND (JsonError (Text MESSAGES.LINK_NOT_FOUND))
  | OK (Some link) =>
      mkReply STATUS.OK
              (JsonStats (shortCode link) (originalUrl link) (clicks link)
                         (lastClicked link))
  | Err _ =>
      mkReply STATUS.INTERNAL_SERVER_ERROR
              (JsonError (Text MESSAGES.SERVER_ERROR))
  end.

Definition deleteLink_reply (r : Result Link) : Reply :=
  match r with
  | OK _ => mkReply STATUS.NO_CONTENT NoBody
  | Err error =>
      if message_is (message error) MESSAGES.LINK_NOT_FOUND
      then mkReply STATUS.NOT_FOUND (JsonError (message error))
      else mkReply STATUS.INTERNAL_SERVER_ERROR
                   (JsonError (Text MESSAGES.SERVER_ERROR))
  end.

(** The handlers, each run alone: the reply and the collection left.
    [body_originalUrl] and [body_shortCode] are the two fields that
    [createLink] reads from [req.body]. *)
Module LinkController.

Definition createLink (URL_parses : string -> bool) (generated : string)
    (now : Date) (body_originalUrl : string) (body_shortCode : option string)
    (w : World) : Reply * World :=
  let (r, w') :=
    run (createLink URL_parses generated now body_originalUrl body_shortCode)
        w in
  (createLink_reply r, w').

Definition getAllLinks (w : World) : Reply * World :=
  let (r, w') := run getAllLinks w in (getAllLinks_reply r, w').

Definition getLinkStats (code : string) (w : World) : Reply * World :=
  let (r, w') := run (getLinkByCode code) w in (getLinkStats_reply r, w').

Definition deleteLink (code : string) (w : World) : Reply * World :=
  let (r, w') := run (deleteLink code) w in (deleteLink_reply r, w').

End LinkController.

(** ** The routes *)

(** The health check computes its [uptime] field from the milliseconds since
    the server started: [Math.floor] of a quotient is [/], and [%] is the
    remainder that takes the sign of the dividend. *)
Definition uptimeHours (uptime : Z) : Z :=
  uptime / (1000 * 60 * 60).

Definition uptimeMinutes (uptime : Z) : Z :=
  Z.rem uptime (1000 * 60 * 60) / (1000 * 60).

Definition uptime_text (uptime : Z) : string :=
  NilZero.string_of_int (Z.to_int (uptimeHours uptime)) ++ "h "
  ++ NilZero.string_of_int (Z.to_int (uptimeMinutes uptime)) ++ "m".

(** What a route answers: a JSON reply, the plain reply of [redirectLink],
    the health report (of which only the [uptime] field is kept here), or
    the error page of the framework. *)
Inductive Answer : Type :=
| Json (r : Reply)
| Plain (r : Response)
| Health (uptime : string)
| FrameworkError (status : Z).

(** The middleware [validateCode], before the handler [next]. *)
Definition validateCode (code : string) (next : World -> Answer * World)
    (w : World) : Answer * World :=
  if negb (CODE_REGEX_test code)
  then (Json (mkReply STATUS.BAD_REQUEST
                      (JsonError (Text MESSAGES.INVALID_CODE))), w)
  else next w.

Definition as_json (h : World -> Reply * World) (w : World)
  : Answer * World :=
  let (r, w') := h w in (Json r, w').

Definition as_plain (h : World -> Response * World) (w : World)
  : Answer * World :=
  let (r, w') := h w in (Plain r, w').

(** [router.get('/:code', validateCode, linkController.getLinkStats)] *)
Definition GET_links_code (code : string) : World -> Answer * World :=
  validateCode code (as_json (LinkController.getLinkStats code)).

(** [router.delete('/:code', validateCode, linkController.deleteLink)] *)
Definition DELETE_links_code (code : string) : World -> Answer * World :=
  validateCode code (as_json (LinkController.deleteLink code)).

(** [router.get('/:code/redirect', validateCode,
    linkController.redirectLink)] and
    [app.get('/:code', validateCode, linkController.redirectLink)] *)
Definition GET_redirect (now : Date) (code : string)
  : World -> Answer * World :=
  validateCode code (as_plain (redirectLink now code)).

(** Paths are matched without regard to the case of letters. *)
Definition to_lower (c : ascii) : ascii :=
  if is_upper c then ascii_of_nat (nat_of_ascii c + 32) else c.

Fixpoint lowercase (s : string) : string :=
  match s with
  | EmptyString => EmptyString
  | String c rest => String (to_lower c) (lowercase rest)
  end.

Definition matches_literal (segment literal : string) : bool :=
  String.eqb (lowercase segment) literal.

Section App.

(** [decodeURIComponent], which the framework applies to a path segment to
    get [req.params.code]; [None] when it throws. *)
Variable decodeURIComponent : string -> option string.

(** [app] on a [GET] whose path is the one segment [segment]:
    [app.use('/healthz', healthRoutes)] is registered before
    [app.get('/:code', ...)] and so is tried first. *)
Definition app_GET_segment (uptime : Z) (now : Date) (segment : string)
    (w : World) : Answer * World :=
  if matches_literal segment "healthz" then (Health (uptime_text uptime), w)
  else match decodeURIComponent segment with
       | None => (FrameworkError STATUS.BAD_REQUEST, w)
       | Some code => GET_redirect now code w
       end.

End App.

(** ** Two [redirectLink] calls, phase by phase *)

(** A request that has ended, and how. *)
Definition settled {A : Type} (p : Prog A) : option (Result A) :=
  match p with
  | Ret a => Some (OK a)
  | Throw e => Some (Err e)
  | _ => None
  end.

(** Where a [redirectLink] call stands: before [findOne], before [save()]
    with the document it loaded, or at its end. *)
Inductive RPhase : Type :=
| Loading
| Saving (l : Link)
| Answered (r : Response)
| Crashed (e : Error).

Definition resolve_from (now : Date) (code : string) (ph : RPhase)
  : Prog Response :=
  match ph with
  | Loading => redirectLink_try now code
  | Saving l =>
      l' <- incrementClicks now l ;;
      Ret (Redirect 302 (originalUrl l'))
  | Answered r => Ret r
  | Crashed e => Throw e
  end.

Definition rphase_step (now : Date) (code : string) (ph : RPhase)
    (w : World) : RPhase * World :=
  match ph with
  | Loading =>
      (match Link_findOne code w with
       | Some l => Saving l
       | None => Answered (Send 404 "Not Found")
       end, w)
  | Saving l =>
      match save_modified (clicked now l) w with
      | (OK _, w') => (Answered (Redirect 302 (originalUrl l)), w')
      | (Err e, w') => (Crashed e, w')
      end
  | Answered r => (Answered r, w)
  | Crashed e => (Crashed e, w)
  end.

Definition rremaining (ph : RPhase) : nat :=
  match ph with
  | Loading => 2
  | Saving _ => 1
  | Answered _ | Crashed _ => 0
  end.

(** The document [x] with its two counters set, when it is the document
    with the [_id] of [l0]. *)
Definition touch (l0 : Link) (k : Z) (t : option Date) (x : Link) : Link :=
  if has_id (_id l0) x
  then mkLink (_id x) (shortCode x) (originalUrl x) k t (createdAt x)
  else x.

(** The saves made so far by two calls. *)
Definition saves (s : RPhase * RPhase) : Z :=
  (match fst s with Answered _ => 1 | _ => 0 end)
  + (match snd s with Answered _ => 1 | _ => 0 end).

Definition rphase_ok (l0 : Link) (n k : Z) (ph : RPhase) : Prop :=
  match ph with
  | Loading => True
  | Saving l =>
      exists k' t', l = touch l0 k' t' l0 /\ clicks l0 <= k' <= clicks l0 + n
  | Answered r => r = Redirect 302 (originalUrl l0) /\ clicks l0 + 1 <= k
  | Crashed _ => False
  end.

(** The invariant of two [redirectLink] calls for the code of [l0], started
    on the collection [ds0]: only the two counters of [l0] have changed;
    [clicks] has grown by at least one and by at most the number of saves,
    once there was a save; [lastClicked] is the time of a call that has
    saved. *)
Definition resolve_inv (l0 : Link) (ds0 : list Link) (t1 t2 : Date)
    (s : RPhase * RPhase) (w : World) : Prop :=
  exists k t,
    links w = map (touch l0 k t) ds0
    /\ rphase_ok l0 (saves s) k (fst s)
    /\ rphase_ok l0 (saves s) k (snd s)
    /\ clicks l0 <= k <= clicks l0 + saves s
    /\ (saves s = 0 -> t = lastClicked l0)
    /\ (0 < saves s ->
        (t = Some t1 /\ (exists r, fst s = Answered r))
        \/ (t = Some t2 /\ (exists r, snd s = Answered r))).

(** A [createLink] call that is past its existence check and has not been
    refused by it. *)
Definition checked (ph : Phase) : Prop :=
  match ph with
  | Checking => False
  | Lost e => e = DuplicateKey
  | Building | Inserting _ | Won _ => True
  end.

Definition resolve_step (t1 t2 : Date) (code : string) (i : nat)
    (s : RPhase * RPhase) (w : World) : (RPhase * RPhase) * World :=
  match i with
  | O => let (ph, w') := rphase_step t1 code (fst s) w in ((ph, snd s), w')
  | S O => let (ph, w') := rphase_step t2 code (snd s) w in ((fst s, ph), w')
  | _ => (s, w)
  end.

Fixpoint resolves (t1 t2 : Date) (code : string) (schedule : list nat)
    (s : RPhase * RPhase) (w : World) : (RPhase * RPhase) * World :=
  match schedule with
  | [] => (s, w)
  | i :: rest =>
      let (s', w') := resolve_step t1 t2 code i s w in
      resolves t1 t2 code rest s' w'
  end.

Definition resolve_pool (t1 t2 : Date) (code : string) (s : RPhase * RPhase)
  : list (Prog Response) :=
  [resolve_from t1 code (fst s); resolve_from t2 code (snd s)].

(** * Properties *)

(** ** The short-code format and the schema validators *)

Lemma CODE_REGEX_length (s : string) :
  CODE_REGEX_test s = true ->
  (6 <= String.length s)%nat /\ (String.length s <= 8)%nat.
Proof.
  unfold CODE_REGEX_test. intros H.
  apply andb_true_iff in H as [H _].
  apply andb_true_iff in H as [Hlo Hhi].
  split; [apply Nat.leb_le, Hlo | apply Nat.leb_le, Hhi].
Qed.

Lemma CODE_REGEX_alnum (s : string) :
  CODE_REGEX_test s = true ->
  Forall (fun c => is_alnum c = true) (list_ascii_of_string s).
Proof.
  unfold CODE_REGEX_test. intros H.
  apply andb_true_iff in H as [_ H].
  apply Forall_forall. apply forallb_forall. exact H.
Qed.

Lemma CODE_REGEX_not_empty (s : string) :
  CODE_REGEX_test s = true -> String.eqb s "" = false.
Proof.
  intros H. destruct s as [|c s]; [discriminate H | reflexivity].
Qed.

Lemma not_empty_eqb (s : string) : s <> "" -> String.eqb s "" = false.
Proof. intros H. apply String.eqb_neq. exact H. Qed.

Lemma validate_new_Link (code url : string) (now : Date) (w : World) :
  CODE_REGEX_test code = true -> url <> "" ->
  validate (fst (new_Link code url now w)) = true.
Proof.
  intros Hc Hu. unfold validate, new_Link.
  cbn [fst shortCode originalUrl].
  rewrite (CODE_REGEX_not_empty _ Hc), (not_empty_eqb _ Hu).
  destruct (CODE_REGEX_length _ Hc) as [Hlo Hhi].
  apply Nat.leb_le in Hlo, Hhi. rewrite Hlo, Hhi. reflexivity.
Qed.

Lemma chosen_code_custom (generated c : string) :
  CODE_REGEX_test c = true -> chosen_code generated (Some c) = c.
Proof.
  intros H. unfold chosen_code, falsy.
  rewrite (CODE_REGEX_not_empty _ H). reflexivity.
Qed.

(** ** Running alone is scheduling alone *)

Lemma run_step {A : Type} (p : Prog A) (w : World) :
  run p w = run (fst (step p w)) (snd (step p w)).
Proof.
  destruct p as [a|e|c k|k|c u t k|d k|d k|c k]; cbn [step run fst snd];
    try reflexivity.
  - destruct (save_new d w) as [[[]|e] w']; reflexivity.
  - destruct (save_modified d w) as [[[]|e] w']; reflexivity.
Qed.

Lemma exec_alone {A : Type} (n : nat) (p : Prog A) (w : World) :
  exists p',
    fst (exec (repeat 0%nat n) [p] w) = [p']
    /\ run p' (snd (exec (repeat 0%nat n) [p] w)) = run p w.
Proof.
  revert p w. induction n as [|n IH]; intros p w; cbn [repeat exec].
  - exists p. split; reflexivity.
  - unfold step_at. cbn [nth_error set_nth].
    rewrite (run_step p w). destruct (step p w) as [p1 w1]. apply IH.
Qed.

(** ** Lookups in the collection *)

Lemma has_code_refl (d : Link) : has_code (shortCode d) d = true.
Proof. unfold has_code. apply String.eqb_refl. Qed.

Lemma has_code_true (code : string) (d : Link) :
  has_code code d = true -> shortCode d = code.
Proof. unfold has_code. apply String.eqb_eq. Qed.

Lemma find_none_existsb (code : string) (ds : list Link) :
  find (has_code code) ds = None -> existsb (has_code code) ds = false.
Proof.
  induction ds as [|x ds IH]; cbn; [reflexivity|].
  destruct (has_code code x); [discriminate | exact IH].
Qed.

Lemma find_some_existsb (code : string) (ds : list Link) (l : Link) :
  find (has_code code) ds = Some l -> existsb (has_code code) ds = true.
Proof.
  induction ds as [|x ds IH]; cbn; [discriminate|].
  destruct (has_code code x); [reflexivity | exact IH].
Qed.

Lemma find_none_filter (code : string) (ds : list Link) :
  find (has_code code) ds = None -> filter (has_code code) ds = [].
Proof.
  induction ds as [|x ds IH]; cbn; [reflexivity|].
  destruct (has_code code x); [discriminate | exact IH].
Qed.

Lemma find_app_new (code : string) (ds : list Link) (d : Link) :
  find (has_code code) ds = None -> shortCode d = code ->
  find (has_code code) (ds ++ [d]) = Some d.
Proof.
  intros Hnone Hd. induction ds as [|x ds IH]; cbn in *.
  - subst code. rewrite has_code_refl. reflexivity.
  - destruct (has_code code x); [discriminate | apply IH, Hnone].
Qed.

Lemma count_app_new (code : string) (ds : list Link) (d : Link) :
  find (has_code code) ds = None -> shortCode d = code ->
  List.length (filter (has_code code) (ds ++ [d])) = 1%nat.
Proof.
  intros Hnone Hd. rewrite filter_app, (find_none_filter _ _ Hnone). cbn.
  subst code. rewrite has_code_refl. reflexivity.
Qed.

(** A code that some document holds passed the format check when the
    document was created. *)
Lemma held_code_well_formed (code : string) (l : Link) (w : World) :
  wf w -> Link_findOne code w = Some l -> CODE_REGEX_test code = true.
Proof.
  intros Hwf Hfind. apply find_some in Hfind as [Hin Hc].
  apply has_code_true in Hc. subst code.
  pose proof (wf_format w Hwf) as Hf. rewrite Forall_forall in Hf.
  apply Hf, Hin.
Qed.

(** A lookup by code, read on the documents themselves: it finds nothing
    exactly when no document has the code. *)
Lemma free_code_not_found (code : string) (w : World) :
  ~ In code (map shortCode (links w)) -> Link_findOne code w = None.
Proof.
  unfold Link_findOne. induction (links w) as [|x ds IH]; cbn [map find In];
    [reflexivity|].
  intros Hn. destruct (has_code code x) eqn:Hx.
  - exfalso. apply Hn. left. apply has_code_true, Hx.
  - apply IH. intros Hin. apply Hn. right. exact Hin.
Qed.

Lemma held_code_found (code : string) (w : World) :
  In code (map shortCode (links w)) ->
  exists l, Link_findOne code w = Some l.
Proof.
  unfold Link_findOne. induction (links w) as [|x ds IH]; cbn [map find In];
    [contradiction|].
  intros Hin. destruct (has_code code x) eqn:Hx.
  - exists x. reflexivity.
  - apply IH. destruct Hin as [E|Hin]; [|exact Hin].
    unfold has_code in Hx. rewrite E, String.eqb_refl in Hx. discriminate.
Qed.

(** ** [createLink], one call at a time *)

Section Create.

Variable URL_parses : string -> bool.

(** [new URL("")] throws. *)
Hypothesis URL_parses_nonempty : URL_parses "" = false.

Lemma URL_parses_not_empty (url : string) :
  URL_parses url = true -> url <> "".
Proof. intros H E. subst url. congruence. Qed.

Lemma createLink_invalid_url (g : string) (now : Date) (url : string)
    (custom : option string) :
  URL_parses url = false ->
  createLink URL_parses g now url custom = Throw INVALID_URL.
Proof. intros H. unfold createLink. rewrite H. reflexivity. Qed.

Lemma createLink_invalid_code (g : string) (now : Date) (url : string)
    (custom : option string) :
  URL_parses url = true ->
  CODE_REGEX_test (chosen_code g custom) = false ->
  createLink URL_parses g now url custom = Throw INVALID_CODE.
Proof.
  intros Hu Hc. unfold createLink. rewrite Hu. cbn [negb].
  rewrite Hc. reflexivity.
Qed.

(** Past its two format checks, a call stands before [findOne]. *)
Lemma createLink_checked (g : string) (now : Date) (url : string)
    (custom : option string) (code : string) :
  URL_parses url = true ->
  chosen_code g custom = code ->
  CODE_REGEX_test code = true ->
  createLink URL_parses g now url custom = create_from code url now Checking.
Proof.
  intros Hu Hc Hre. unfold createLink. rewrite Hu. cbn [negb].
  rewrite Hc, Hre. reflexivity.
Qed.

Lemma run_create_taken (code url : string) (now : Date) (w : World)
    (l : Link) :
  Link_findOne code w = Some l ->
  run (create_from code url now Checking) w = (Err CODE_EXISTS, w).
Proof. intros H. cbn. rewrite H. reflexivity. Qed.

Lemma run_create_fresh (code url : string) (now : Date) (w : World) :
  CODE_REGEX_test code = true -> url <> "" ->
  Link_findOne code w = None ->
  run (create_from code url now Checking) w
  = (OK (mkLink (next_oid w) code url 0 None now),
     mkWorld (links w ++ [mkLink (next_oid w) code url 0 None now])
             (S (next_oid w))).
Proof.
  intros Hc Hu Hnone. cbn [create_from bind run]. rewrite Hnone.
  cbn [bind run new_Link]. unfold save_new.
  pose proof (validate_new_Link code url now w Hc Hu) as Hv.
  cbn [new_Link fst] in Hv. rewrite Hv. cbn [negb links shortCode].
  rewrite (find_none_existsb _ _ Hnone). reflexivity.
Qed.

(** A call with a well-formed URL and a well-formed code that nobody holds
    succeeds, and the collection gains exactly its document. *)
Lemma run_createLink_fresh (g : string) (now : Date) (url : string)
    (custom : option string) (code : string) (w : World) :
  URL_parses url = true ->
  chosen_code g custom = code ->
  CODE_REGEX_test code = true ->
  Link_findOne code w = None ->
  run (createLink URL_parses g now url custom) w
  = (OK (mkLink (next_oid w) code url 0 None now),
     mkWorld (links w ++ [mkLink (next_oid w) code url 0 None now])
             (S (next_oid w))).
Proof.
  intros Hu Hc Hre Hnone.
  rewrite (createLink_checked g now url custom code Hu Hc Hre).
  apply run_create_fresh; auto using URL_parses_not_empty.
Qed.

Lemma run_createLink_taken (g : string) (now : Date) (url : string)
    (custom : option string) (w : World) (l : Link) :
  URL_parses url = true ->
  CODE_REGEX_test (chosen_code g custom) = true ->
  Link_findOne (chosen_code g custom) w = Some l ->
  run (createLink URL_parses g now url custom) w = (Err CODE_EXISTS, w).
Proof.
  intros Hu Hre Hsome.
  rewrite (createLink_checked g now url custom _ Hu eq_refl Hre).
  apply (run_create_taken _ _ _ _ l Hsome).
Qed.

(** C10.  An empty custom code is treated as no custom code: although the
    empty string fails the format check, [createLink] is then the very same
    request as with the code absent, and so it stores the generated code
    rather than failing with [INVALID_CODE]. *)
Theorem empty_custom_code_is_absent (g : string) (now : Date) (url : string)
    (w : World) :
  CODE_REGEX_test "" = false
  /\ createLink URL_parses g now url (Some "")
     = createLink URL_parses g now url None
  /\ run (createLink URL_parses g now url (Some "")) w
     = run (createLink URL_parses g now url None) w
  /\ (URL_parses url = true -> CODE_REGEX_test g = true ->
      Link_findOne g w = None ->
      exists d w',
        run (createLink URL_parses g now url (Some "")) w = (OK d, w')
        /\ shortCode d = g
        /\ Link_findOne g w' = Some d).
Proof.
  split; [reflexivity|]. split; [reflexivity|]. split; [reflexivity|].
  intros Hu Hg Hnone. eexists; eexists. split; [|split].
  - apply (run_createLink_fresh g now url (Some "") g w); auto.
  - reflexivity.
  - unfold Link_findOne. cbn [links]. apply find_app_new; auto.
Qed.

(** C8.  Round trip: after [createLink(url, code)] with a well-formed URL and
    a well-formed code that no document of the collection has,
    [getLinkByCode(code)] returns the created document, whose [shortCode]
    and [originalUrl] are the arguments of the call; the document is the
    one the collection gained. *)
Theorem create_then_getLinkByCode (g : string) (now : Date)
    (url code : string) (w : World) :
  URL_parses url = true ->
  CODE_REGEX_test code = true ->
  ~ In code (map shortCode (links w)) ->
  exists d w',
    run (createLink URL_parses g now url (Some code)) w = (OK d, w')
    /\ run (getLinkByCode code) w' = (OK (Some d), w')
    /\ shortCode d = code
    /\ originalUrl d = url
    /\ links w' = (links w ++ [d])%list.
Proof.
  intros Hu Hre Hfree.
  pose proof (free_code_not_found code w Hfree) as Hnone.
  eexists; eexists. split; [|split; [|split; [|split]]].
  - apply (run_createLink_fresh g now url (Some code) code w); auto.
    apply chosen_code_custom, Hre.
  - cbn [getLinkByCode run]. unfold Link_findOne. cbn [links].
    rewrite (find_app_new code (links w)
               (mkLink (next_oid w) code url 0 None now) Hnone eq_refl).
    reflexivity.
  - reflexivity.
  - reflexivity.
  - reflexivity.
Qed.

(** C3, as the code has it.  A collision is never retried: whether the code
    was generated (custom code absent or empty) or supplied, [createLink]
    fails with [CODE_EXISTS] at the first collision and leaves the
    collection as it was. *)
Theorem collision_is_not_retried (g : string) (now : Date) (url : string)
    (w : World) (l : Link) :
  URL_parses url = true ->
  wf w ->
  (forall custom, falsy custom = true -> Link_findOne g w = Some l ->
     run (createLink URL_parses g now url custom) w = (Err CODE_EXISTS, w))
  /\ (forall c, Link_findOne c w = Some l ->
     run (createLink URL_parses g now url (Some c)) w = (Err CODE_EXISTS, w)).
Proof.
  intros Hu Hwf. split.
  - intros custom Hf Hsome.
    pose proof (held_code_well_formed g l w Hwf Hsome) as Hre.
    assert (Hc : chosen_code g custom = g)
      by (unfold chosen_code; rewrite Hf; reflexivity).
    apply (run_createLink_taken g now url custom w l Hu); rewrite Hc; auto.
  - intros c Hsome.
    pose proof (held_code_well_formed c l w Hwf Hsome) as Hre.
    pose proof (chosen_code_custom g c Hre) as Hc.
    apply (run_createLink_taken g now url (Some c) w l Hu); rewrite Hc; auto.
Qed.

(** C5, as the code has it.  [createLink] fails with [INVALID_URL] when the
    URL does not parse; and, the URL parsing, with [INVALID_CODE] when a
    non-empty custom code fails the format check, and with [CODE_EXISTS]
    when the custom code is held by a document.  In each case the
    collection is unchanged.  Creating twice with one custom code: the
    first call succeeds, the second fails with [CODE_EXISTS], and one
    document has the code afterwards. *)
Theorem createLink_rejections (g : string) (now : Date) (url : string)
    (w : World) :
  (forall custom, URL_parses url = false ->
     run (createLink URL_parses g now url custom) w = (Err INVALID_URL, w))
  /\ (forall c, URL_parses url = true -> c <> "" ->
      CODE_REGEX_test c = false ->
      run (createLink URL_parses g now url (Some c)) w
      = (Err INVALID_CODE, w))
  /\ (forall c l, URL_parses url = true -> wf w ->
      Link_findOne c w = Some l ->
      run (createLink URL_parses g now url (Some c)) w = (Err CODE_EXISTS, w))
  /\ (forall c g2 now2 url2, URL_parses url = true ->
      URL_parses url2 = true -> CODE_REGEX_test c = true ->
      Link_findOne c w = None ->
      exists d w1,
        run (createLink URL_parses g now url (Some c)) w = (OK d, w1)
        /\ run (createLink URL_parses g2 now2 url2 (Some c)) w1
           = (Err CODE_EXISTS, w1)
        /\ count_code c w1 = 1%nat).
Proof.
  split; [|split; [|split]].
  - intros custom Hu. rewrite createLink_invalid_url by exact Hu. reflexivity.
  - intros c Hu Hne Hre.
    rewrite createLink_invalid_code; [reflexivity | exact Hu |].
    unfold chosen_code, falsy. rewrite (not_empty_eqb _ Hne). exact Hre.
  - intros c l Hu Hwf Hsome.
    pose proof (held_code_well_formed c l w Hwf Hsome) as Hre.
    pose proof (chosen_code_custom g c Hre) as Hc.
    apply (run_createLink_taken g now url (Some c) w l Hu); rewrite Hc; auto.
  - intros c g2 now2 url2 Hu Hu2 Hre Hnone.
    pose proof (chosen_code_custom g c Hre) as Hc.
    pose proof (chosen_code_custom g2 c Hre) as Hc2.
    eexists; eexists. split; [|split].
    + apply (run_createLink_fresh g now url (Some c) c w); auto.
    + eapply (run_createLink_taken g2 now2 url2 (Some c)); auto.
      * rewrite Hc2. exact Hre.
      * rewrite Hc2. unfold Link_findOne. cbn [links].
        apply find_app_new; [exact Hnone | reflexivity].
    + unfold count_code. cbn [links].
      apply count_app_new; [exact Hnone | reflexivity].
Qed.

(** C7, as the code has it.  For a URL that parses and an absent custom
    code: when the generated code is well-formed and no document of the
    collection has it, [createLink] succeeds; whenever it succeeds, the
    returned document is the one the collection gained, its [shortCode] is
    the generated code, 6 to 8 alphanumeric characters, its [clicks] is 0
    and its [lastClicked] is absent; and when a document already has the
    generated code (on a collection built by the service, or the code being
    well-formed), [createLink] fails with [CODE_EXISTS] and the collection
    is unchanged. *)
Theorem createLink_generated (g : string) (now : Date) (url : string)
    (w : World) :
  URL_parses url = true ->
  (CODE_REGEX_test g = true -> ~ In g (map shortCode (links w)) ->
   exists d w', run (createLink URL_parses g now url None) w = (OK d, w'))
  /\ (forall d w',
      run (createLink URL_parses g now url None) w = (OK d, w') ->
      shortCode d = g
      /\ (6 <= String.length (shortCode d))%nat
      /\ (String.length (shortCode d) <= 8)%nat
      /\ Forall (fun c => is_alnum c = true)
                (list_ascii_of_string (shortCode d))
      /\ clicks d = 0
      /\ lastClicked d = None
      /\ Link_findOne g w' = Some d
      /\ links w' = (links w ++ [d])%list
      /\ ~ In g (map shortCode (links w)))
  /\ (In g (map shortCode (links w)) ->
      wf w \/ CODE_REGEX_test g = true ->
      run (createLink URL_parses g now url None) w = (Err CODE_EXISTS, w)).
Proof.
  intros Hu. split; [|split].
  - intros Hre Hfree. eexists; eexists.
    apply (run_createLink_fresh g now url None g w); auto.
    apply free_code_not_found, Hfree.
  - intros d w' Hrun.
    destruct (CODE_REGEX_test g) eqn:Hre.
    + destruct (Link_findOne g w) as [l|] eqn:Hfind.
      * rewrite (run_createLink_taken g now url None w l Hu) in Hrun;
          [discriminate | exact Hre | exact Hfind].
      * rewrite (run_createLink_fresh g now url None g w Hu eq_refl Hre Hfind)
          in Hrun.
        injection Hrun as Hd Hw. subst d w'.
        cbn [shortCode clicks lastClicked links].
        destruct (CODE_REGEX_length _ Hre) as [Hlo Hhi].
        repeat split; auto using CODE_REGEX_alnum.
        -- unfold Link_findOne. cbn [links]. apply find_app_new; auto.
        -- intros Hin. destruct (held_code_found g w Hin) as [l Hl].
           congruence.
    + rewrite createLink_invalid_code in Hrun; [discriminate | exact Hu |].
      exact Hre.
  - intros Hin Hok. destruct (held_code_found g w Hin) as [l Hl].
    apply (run_createLink_taken g now url None w l Hu); [|exact Hl].
    destruct Hok as [Hwf|Hre]; [|exact Hre].
    apply (held_code_well_formed g l w Hwf Hl).
Qed.

End Create.

(** ** Updates and removals in a collection without duplicates *)

Lemma find_some_in (code : string) (ds : list Link) (l : Link) :
  find (has_code code) ds = Some l -> In l ds /\ shortCode l = code.
Proof.
  intros H. apply find_some in H as [Hin Hc].
  split; [exact Hin | apply has_code_true, Hc].
Qed.

Lemma not_in_find_none (code : string) (ds : list Link) :
  ~ In code (map shortCode ds) -> find (has_code code) ds = None.
Proof.
  induction ds as [|x ds IH]; cbn; [reflexivity|]. intros Hn.
  destruct (has_code code x) eqn:Hx.
  - exfalso. apply Hn. left. apply has_code_true, Hx.
  - apply IH. intros Hin. apply Hn. right. exact Hin.
Qed.

Lemma find_none_not_in (code : string) (ds : list Link) :
  find (has_code code) ds = None -> ~ In code (map shortCode ds).
Proof.
  intros Hnone Hin. apply in_map_iff in Hin as [x [Hx Hin]].
  apply (find_none _ _ Hnone) in Hin. unfold has_code in Hin.
  rewrite Hx, String.eqb_refl in Hin. discriminate.
Qed.

Lemma same_id_same_doc (ds : list Link) (d d' : Link) :
  NoDup (map _id ds) -> In d ds -> In d' ds -> _id d' = _id d -> d' = d.
Proof.
  induction ds as [|x ds IH]; cbn; [contradiction|].
  intros Hnd [Hd|Hd] [Hd'|Hd'] Hid; inversion Hnd as [|? ? Hnotin Hnd'];
    subst.
  - reflexivity.
  - exfalso. apply Hnotin. rewrite <- Hid. apply in_map, Hd'.
  - exfalso. apply Hnotin. rewrite Hid. apply in_map, Hd.
  - apply IH; assumption.
Qed.

Lemma set_modified_clicked (now : Date) (l : Link) :
  set_modified (clicked now l) l = clicked now l.
Proof. reflexivity. Qed.

Lemma has_code_set_modified (code : string) (u x : Link) :
  has_code code (set_modified u x) = has_code code x.
Proof. reflexivity. Qed.

(** [save()] of a document loaded by its code reaches that document, and
    only it. *)
Lemma update_by_id_found (code : string) (ds : list Link) (l u : Link) :
  NoDup (map _id ds) ->
  find (has_code code) ds = Some l ->
  _id u = _id l ->
  exists ds',
    update_by_id u ds = Some ds'
    /\ find (has_code code) ds' = Some (set_modified u l)
    /\ forall c', c' <> code ->
         find (has_code c') ds' = find (has_code c') ds.
Proof.
  intros Hnd Hfind Hid. induction ds as [|x ds IH];
    cbn [find update_by_id map] in *; [discriminate|].
  inversion Hnd as [|? ? Hnotin Hnd']; subst.
  destruct (has_code code x) eqn:Hx.
  - injection Hfind as ->. unfold has_id. rewrite Hid, Nat.eqb_refl.
    eexists. split; [reflexivity|]. split.
    + cbn [find]. rewrite has_code_set_modified, Hx. reflexivity.
    + intros c' Hc'. cbn [find]. rewrite has_code_set_modified.
      destruct (has_code c' l) eqn:Hl; [|reflexivity].
      apply has_code_true in Hx, Hl. congruence.
  - assert (Hne : has_id (_id u) x = false).
    { unfold has_id. apply Nat.eqb_neq. intros E. apply Hnotin.
      rewrite E, Hid. apply in_map. apply (find_some_in _ _ _ Hfind). }
    rewrite Hne. destruct (IH Hnd' Hfind) as [ds' [Hup [Hf Hother]]].
    rewrite Hup. eexists. split; [reflexivity|]. split.
    + cbn [find]. rewrite Hx. exact Hf.
    + intros c' Hc'. cbn [find]. rewrite (Hother c' Hc'). reflexivity.
Qed.

Lemma update_by_id_maps (u : Link) (ds ds' : list Link) :
  update_by_id u ds = Some ds' ->
  map shortCode ds' = map shortCode ds /\ map _id ds' = map _id ds.
Proof.
  revert ds'. induction ds as [|x ds IH]; cbn; intros ds' H; [discriminate|].
  destruct (has_id (_id u) x).
  - injection H as <-. split; reflexivity.
  - destruct (update_by_id u ds) as [r|]; [|discriminate].
    injection H as <-. destruct (IH r eq_refl) as [Hc Hi].
    cbn. rewrite Hc, Hi. split; reflexivity.
Qed.

Lemma update_by_id_in (u : Link) (ds ds' : list Link) (d' : Link) :
  update_by_id u ds = Some ds' -> In d' ds' ->
  In d' ds \/ exists x, In x ds /\ _id x = _id u /\ d' = set_modified u x.
Proof.
  revert ds'. induction ds as [|x ds IH]; cbn; intros ds' H Hin;
    [discriminate|].
  destruct (has_id (_id u) x) eqn:Hx.
  - injection H as <-. destruct Hin as [<-|Hin].
    + right. exists x. split; [left; reflexivity|].
      split; [apply Nat.eqb_eq, Hx | reflexivity].
    + left. right. exact Hin.
  - destruct (update_by_id u ds) as [r|]; [|discriminate].
    injection H as <-. destruct Hin as [<-|Hin].
    + left. left. reflexivity.
    + destruct (IH r eq_refl Hin) as [Hold|[y [Hy [Hid Hd']]]].
      * left. right. exact Hold.
      * right. exists y. split; [right; exact Hy | split; assumption].
Qed.

Lemma remove_first_in (code : string) (ds : list Link) (d : Link) :
  In d (remove_first code ds) -> In d ds.
Proof.
  induction ds as [|x ds IH]; cbn; [trivial|].
  destruct (has_code code x); cbn; intuition.
Qed.

Lemma remove_first_NoDup {B : Type} (f : Link -> B) (code : string)
    (ds : list Link) :
  NoDup (map f ds) -> NoDup (map f (remove_first code ds)).
Proof.
  induction ds as [|x ds IH]; cbn; intros Hnd; [exact Hnd|].
  inversion Hnd as [|? ? Hnotin Hnd']; subst.
  destruct (has_code code x); cbn; [exact Hnd'|].
  constructor; [|apply IH, Hnd'].
  intros Hin. apply Hnotin. apply in_map_iff in Hin as [y [Hy Hin]].
  apply in_map_iff. exists y. split; [exact Hy|].
  apply (remove_first_in _ _ _ Hin).
Qed.

(** After [findOneAndDelete], no document has the code. *)
Lemma remove_first_gone (code : string) (ds : list Link) :
  NoDup (map shortCode ds) ->
  find (has_code code) (remove_first code ds) = None.
Proof.
  induction ds as [|x ds IH]; cbn; intros Hnd; [reflexivity|].
  inversion Hnd as [|? ? Hnotin Hnd']; subst.
  destruct (has_code code x) eqn:Hx.
  - apply not_in_find_none. apply has_code_true in Hx. subst code.
    exact Hnotin.
  - cbn. rewrite Hx. apply IH, Hnd'.
Qed.

(** ** Resolution and deletion, one call at a time *)

Lemma run_incrementClicks (now : Date) (code : string) (l : Link)
    (w : World) :
  wf w -> Link_findOne code w = Some l ->
  exists w',
    run (incrementClicks now l) w = (OK (clicked now l), w')
    /\ Link_findOne code w' = Some (clicked now l)
    /\ (forall c', c' <> code -> Link_findOne c' w' = Link_findOne c' w)
    /\ update_by_id (clicked now l) (links w) = Some (links w')
    /\ next_oid w' = next_oid w.
Proof.
  intros Hwf Hfind.
  destruct (update_by_id_found code (links w) l (clicked now l)
              (wf_ids w Hwf) Hfind eq_refl) as [ds' [Hup [Hf Hother]]].
  exists (mkWorld ds' (next_oid w)).
  cbn [incrementClicks bind run]. unfold save_modified. rewrite Hup.
  cbn [run links next_oid]. rewrite set_modified_clicked in Hf.
  repeat split; auto.
Qed.

Lemma redirectLink_found (now : Date) (code : string) (w : World) :
  redirectLink now code w
  = match Link_findOne code w with
    | Some l =>
        (redirectLink_catch
           (match fst (run (incrementClicks now l) w) with
            | OK l' => OK (Redirect 302 (originalUrl l'))
            | Err e => Err e
            end),
         snd (run (incrementClicks now l) w))
    | None => (Send 404 "Not Found", w)
    end.
Proof.
  unfold redirectLink. cbn [redirectLink_try getLinkByCode bind run].
  destruct (Link_findOne code w) as [l0|]; [|reflexivity].
  cbn [incrementClicks bind run].
  destruct (save_modified (clicked now l0) w) as [[u|e] w']; reflexivity.
Qed.

(** C4.  [redirectLink] looks the code up.  If a document has it, the
    document is updated and returned by [incrementClicks] with [clicks] one
    more than before and [lastClicked] set to the time of the call, the
    caller is redirected to its URL, and no other document changes; if no
    document has it, the answer is 404 and the collection is unchanged. *)
Theorem resolve_increments_or_not_found (now : Date) (code : string)
    (w : World) :
  wf w ->
  match Link_findOne code w with
  | Some l =>
      exists w',
        redirectLink now code w = (Redirect 302 (originalUrl l), w')
        /\ run (incrementClicks now l) w = (OK (clicked now l), w')
        /\ Link_findOne code w' = Some (clicked now l)
        /\ clicks (clicked now l) = clicks l + 1
        /\ lastClicked (clicked now l) = Some now
        /\ forall c', c' <> code -> Link_findOne c' w' = Link_findOne c' w
  | None => redirectLink now code w = (Send 404 "Not Found", w)
  end.
Proof.
  intros Hwf. rewrite (redirectLink_found now code w).
  destruct (Link_findOne code w) as [l|] eqn:Hfind; [|reflexivity].
  destruct (run_incrementClicks now code l w Hwf Hfind)
    as [w' [Hrun [Hf [Hother _]]]].
  exists w'. rewrite Hrun. cbn. repeat split; auto.
Qed.

Lemma run_deleteLink (code : string) (w : World) :
  run (deleteLink code) w
  = (match Link_findOne code w with
     | Some l => OK l
     | None => Err LINK_NOT_FOUND
     end,
     mkWorld (remove_first code (links w)) (next_oid w)).
Proof.
  cbn [deleteLink bind run Link_findOneAndDelete].
  destruct (Link_findOne code w); reflexivity.
Qed.

(** ** The invariant of the collection *)

Lemma wf_empty : wf empty_world.
Proof. split; cbn; constructor. Qed.

Lemma wf_insert (w : World) (code url : string) (now : Date) :
  wf w -> CODE_REGEX_test code = true -> Link_findOne code w = None ->
  wf (mkWorld (links w ++ [mkLink (next_oid w) code url 0 None now])
              (S (next_oid w))).
Proof.
  intros [Hc Hi Hf Hre] Hcode Hnone. split; cbn [links next_oid].
  - rewrite map_app. cbn. apply NoDup_app; [exact Hc | | ].
    + constructor; [intros [] | constructor].
    + intros c Hin [<-|[]]. apply (find_none_not_in _ _ Hnone Hin).
  - rewrite map_app. cbn. apply NoDup_app; [exact Hi | | ].
    + constructor; [intros [] | constructor].
    + intros i Hin [<-|[]]. apply in_map_iff in Hin as [x [Hx Hin]].
      rewrite Forall_forall in Hf. specialize (Hf x Hin). lia.
  - apply Forall_app. split.
    + eapply Forall_impl; [|exact Hf]. cbn. intros; lia.
    + constructor; [cbn; lia | constructor].
  - apply Forall_app. split; [exact Hre|].
    constructor; [exact Hcode | constructor].
Qed.

Lemma wf_update (w : World) (u : Link) (ds' : list Link) :
  wf w -> update_by_id u (links w) = Some ds' ->
  wf (mkWorld ds' (next_oid w)).
Proof.
  intros [Hc Hi Hf Hre] Hup.
  destruct (update_by_id_maps _ _ _ Hup) as [Hmc Hmi].
  split; cbn [links next_oid].
  - rewrite Hmc. exact Hc.
  - rewrite Hmi. exact Hi.
  - rewrite Forall_forall in *. intros d' Hin.
    destruct (update_by_id_in _ _ _ _ Hup Hin) as [Hold|[x [Hx [_ ->]]]].
    + apply Hf, Hold.
    + cbn. apply Hf, Hx.
  - rewrite Forall_forall in *. intros d' Hin.
    destruct (update_by_id_in _ _ _ _ Hup Hin) as [Hold|[x [Hx [_ ->]]]].
    + apply Hre, Hold.
    + cbn. apply Hre, Hx.
Qed.

Lemma wf_remove (w : World) (code : string) :
  wf w -> wf (mkWorld (remove_first code (links w)) (next_oid w)).
Proof.
  intros [Hc Hi Hf Hre]. split; cbn [links next_oid].
  - apply remove_first_NoDup, Hc.
  - apply remove_first_NoDup, Hi.
  - rewrite Forall_forall in *. intros d Hin.
    apply Hf, (remove_first_in _ _ _ Hin).
  - rewrite Forall_forall in *. intros d Hin.
    apply Hre, (remove_first_in _ _ _ Hin).
Qed.

Section Lifecycle.

Variable URL_parses : string -> bool.
Hypothesis URL_parses_nonempty : URL_parses "" = false.

(** What a [createLink] run alone does to the collection: nothing, or the
    insertion of one fresh document with a code nobody held. *)
Lemma perform_Create (g : string) (now : Date) (url : string)
    (custom : option string) (w : World) :
  perform URL_parses (Create g now url custom) w = w
  \/ (CODE_REGEX_test (chosen_code g custom) = true
      /\ Link_findOne (chosen_code g custom) w = None
      /\ perform URL_parses (Create g now url custom) w
         = mkWorld (links w ++ [mkLink (next_oid w) (chosen_code g custom)
                                       url 0 None now])
                   (S (next_oid w))).
Proof.
  unfold perform.
  destruct (URL_parses url) eqn:Hu.
  - destruct (CODE_REGEX_test (chosen_code g custom)) eqn:Hre.
    + destruct (Link_findOne (chosen_code g custom) w) as [l|] eqn:Hfind.
      * left. rewrite (run_createLink_taken URL_parses g now url custom w l);
          auto.
      * right. split; [reflexivity|]. split; [reflexivity|].
        rewrite (run_createLink_fresh URL_parses URL_parses_nonempty
                   g now url custom _ w Hu eq_refl Hre Hfind).
        reflexivity.
    + left. rewrite createLink_invalid_code; auto.
  - left. rewrite createLink_invalid_url; auto.
Qed.

Lemma perform_Resolve (now : Date) (code : string) (w : World) :
  wf w ->
  perform URL_parses (Resolve now code) w = w
  \/ exists l,
       Link_findOne code w = Some l
       /\ update_by_id (clicked now l) (links w)
          = Some (links (perform URL_parses (Resolve now code) w))
       /\ next_oid (perform URL_parses (Resolve now code) w) = next_oid w.
Proof.
  intros Hwf. unfold perform. rewrite redirectLink_found.
  destruct (Link_findOne code w) as [l|] eqn:Hfind; [|left; reflexivity].
  right. exists l. split; [reflexivity|].
  destruct (run_incrementClicks now code l w Hwf Hfind)
    as [w' [Hrun [_ [_ [Hup Hoid]]]]].
  rewrite Hrun. cbn [snd]. split; assumption.
Qed.

(** The unique index at work: every request, run alone, keeps the
    collection free of duplicate codes and duplicate [_id]s. *)
Lemma perform_preserves_wf (r : Request) (w : World) :
  wf w -> wf (perform URL_parses r w).
Proof.
  intros Hwf. destruct r as [g now url custom| |code|now code|code].
  - destruct (perform_Create g now url custom w) as [->|[Hre [Hnone ->]]];
      [exact Hwf | apply wf_insert; assumption].
  - exact Hwf.
  - exact Hwf.
  - destruct (perform_Resolve now code w Hwf) as [->|[l [_ [Hup Hoid]]]];
      [exact Hwf|].
    pose proof (wf_update w _ _ Hwf Hup) as H.
    rewrite <- Hoid in H.
    destruct (perform URL_parses (Resolve now code) w); exact H.
  - unfold perform. rewrite run_deleteLink. cbn [snd].
    apply wf_remove, Hwf.
Qed.

Lemma perform_all_wf (rs : list Request) (w : World) :
  wf w -> wf (perform_all URL_parses rs w).
Proof.
  revert w. induction rs as [|r rs IH]; cbn; intros w Hwf; [exact Hwf|].
  apply IH, perform_preserves_wf, Hwf.
Qed.

(** Every collection that requests build from the empty one is
    well-formed. *)
Lemma reachable_wf (rs : list Request) :
  wf (perform_all URL_parses rs empty_world).
Proof. apply perform_all_wf, wf_empty. Qed.

(** Run alone, no request changes the [shortCode] or the [originalUrl] of a
    document or lowers its [clicks]. *)
Lemma perform_keeps_documents (r : Request) (w : World) (d d' : Link) :
  wf w -> In d (links w) -> In d' (links (perform URL_parses r w)) ->
  _id d' = _id d ->
  shortCode d' = shortCode d /\ originalUrl d' = originalUrl d
  /\ clicks d <= clicks d'.
Proof.
  intros Hwf Hd Hd' Hid.
  assert (Hsame : In d' (links w) ->
                  shortCode d' = shortCode d /\ originalUrl d' = originalUrl d
                  /\ clicks d <= clicks d').
  { intros Hin. rewrite (same_id_same_doc _ _ _ (wf_ids w Hwf) Hd Hin Hid).
    repeat split; lia. }
  destruct r as [g now url custom| |code|now code|code].
  - destruct (perform_Create g now url custom w) as [E|[_ [_ E]]];
      rewrite E in Hd'; [auto|].
    cbn [links] in Hd'. apply in_app_or in Hd' as [Hin|[<-|[]]]; [auto|].
    cbn in Hid. pose proof (wf_fresh w Hwf) as Hf.
    rewrite Forall_forall in Hf. specialize (Hf d Hd). lia.
  - auto.
  - auto.
  - destruct (perform_Resolve now code w Hwf) as [E|[l [Hfind [Hup _]]]];
      [rewrite E in Hd'; auto|].
    destruct (update_by_id_in _ _ _ _ Hup Hd') as [Hin|[x [Hx [Hxid ->]]]];
      [auto|].
    cbn in Hid. cbn [_id clicked] in Hxid.
    destruct (find_some_in _ _ _ Hfind) as [Hl _].
    pose proof (same_id_same_doc _ _ _ (wf_ids w Hwf) Hd Hx Hid) as Exd.
    pose proof (same_id_same_doc _ _ _ (wf_ids w Hwf) Hl Hx Hxid) as Exl.
    subst x. subst l. cbn. repeat split; lia.
  - unfold perform in Hd'. rewrite run_deleteLink in Hd'. cbn in Hd'.
    apply Hsame, (remove_first_in _ _ _ Hd').
Qed.

(** C9.  After [deleteLink(code)] of an existing code, [redirectLink(code)]
    answers 404, and a following [createLink(url, code)] with the same code
    succeeds with a brand-new document: another [_id], [clicks] 0, the new
    URL. *)
Theorem delete_then_resolve_then_create (g : string) (now1 now2 : Date)
    (url code : string) (l : Link) (w : World) :
  wf w ->
  Link_findOne code w = Some l ->
  URL_parses url = true ->
  exists w1,
    run (deleteLink code) w = (OK l, w1)
    /\ redirectLink now1 code w1 = (Send 404 "Not Found", w1)
    /\ exists d w2,
         run (createLink URL_parses g now2 url (Some code)) w1 = (OK d, w2)
         /\ shortCode d = code /\ originalUrl d = url
         /\ clicks d = 0 /\ lastClicked d = None
         /\ _id d <> _id l
         /\ Link_findOne code w2 = Some d.
Proof.
  intros Hwf Hfind Hu.
  exists (mkWorld (remove_first code (links w)) (next_oid w)).
  assert (Hgone : Link_findOne code
                    (mkWorld (remove_first code (links w)) (next_oid w))
                  = None)
    by (apply remove_first_gone, (wf_codes w Hwf)).
  assert (Hre : CODE_REGEX_test code = true).
  { destruct (find_some_in _ _ _ Hfind) as [Hin <-].
    pose proof (wf_format w Hwf) as Hf. rewrite Forall_forall in Hf.
    apply Hf, Hin. }
  split; [|split].
  - rewrite run_deleteLink, Hfind. reflexivity.
  - rewrite redirectLink_found, Hgone. reflexivity.
  - eexists; eexists. split.
    + apply (run_createLink_fresh URL_parses URL_parses_nonempty
               g now2 url (Some code) code); auto.
      apply chosen_code_custom, Hre.
    + cbn [shortCode originalUrl clicks lastClicked _id next_oid].
      split; [reflexivity|]. split; [reflexivity|]. split; [reflexivity|].
      split; [reflexivity|]. split.
      * destruct (find_some_in _ _ _ Hfind) as [Hin _].
        pose proof (wf_fresh w Hwf) as Hf. rewrite Forall_forall in Hf.
        specialize (Hf l Hin). lia.
      * unfold Link_findOne in *. cbn [links] in *.
        apply find_app_new; auto.
Qed.

End Lifecycle.

(** ** Two [createLink] calls in flight *)

Lemma step_create_from (code url : string) (now : Date) (ph : Phase)
    (w : World) :
  step (create_from code url now ph) w
  = (create_from code url now (fst (phase_step code url now ph w)),
     snd (phase_step code url now ph w)).
Proof.
  destruct ph as [| |d|d|e]; cbn [create_from bind step phase_step fst snd].
  - destruct (Link_findOne code w); reflexivity.
  - reflexivity.
  - destruct (save_new d w) as [[u|e] w']; reflexivity.
  - reflexivity.
  - reflexivity.
Qed.

Lemma step_at_race (code u1 : string) (n1 : Date) (u2 : string) (n2 : Date)
    (i : nat) (s : Phase * Phase) (w : World) :
  step_at i (race_pool code u1 n1 u2 n2 s) w
  = (race_pool code u1 n1 u2 n2 (fst (race_step code u1 n1 u2 n2 i s w)),
     snd (race_step code u1 n1 u2 n2 i s w)).
Proof.
  destruct s as [ph1 ph2]. unfold race_pool, step_at, race_step.
  destruct i as [|[|i]]; cbn [nth_error fst snd].
  - rewrite step_create_from.
    destruct (phase_step code u1 n1 ph1 w); reflexivity.
  - rewrite step_create_from.
    destruct (phase_step code u2 n2 ph2 w); reflexivity.
  - destruct i; reflexivity.
Qed.

Lemma exec_race (code u1 : string) (n1 : Date) (u2 : string) (n2 : Date)
    (schedule : list nat) (s : Phase * Phase) (w : World) :
  exec schedule (race_pool code u1 n1 u2 n2 s) w
  = (race_pool code u1 n1 u2 n2 (fst (race code u1 n1 u2 n2 schedule s w)),
     snd (race code u1 n1 u2 n2 schedule s w)).
Proof.
  revert s w. induction schedule as [|i rest IH]; intros s w; cbn [exec race].
  - reflexivity.
  - rewrite step_at_race.
    destruct (race_step code u1 n1 u2 n2 i s w) as [s' w']. apply IH.
Qed.

Lemma race_inv_sym (code u1 u2 : string) (ds0 : list Link)
    (ph1 ph2 : Phase) (w : World) :
  race_inv code u1 u2 ds0 (ph1, ph2) w ->
  race_inv code u2 u1 ds0 (ph2, ph1) w.
Proof.
  unfold race_inv; cbn [fst snd]. intros [H1 [H2 H]].
  split; [exact H2|]. split; [exact H1|].
  destruct H as [[Ha [Hb Hl]]|[H|H]]; [left|right; right|right; left]; auto.
Qed.

(** One operation of the first call keeps the invariant. *)
Lemma race_inv_step (code u1 u2 : string) (now : Date) (ds0 : list Link)
    (ph1 ph2 : Phase) (w : World) :
  CODE_REGEX_test code = true -> u1 <> "" ->
  find (has_code code) ds0 = None ->
  race_inv code u1 u2 ds0 (ph1, ph2) w ->
  race_inv code u1 u2 ds0 (fst (phase_step code u1 now ph1 w), ph2)
           (snd (phase_step code u1 now ph1 w)).
Proof.
  intros Hre Hu Hnone. unfold race_inv; cbn [fst snd].
  intros [H1 [H2 H]].
  destruct ph1 as [| |d|d|e]; cbn [phase_step fst snd].
  - (* findOne *)
    destruct H as [[_ [Hp Hl]]|[[d [E _]]|[d [E [_ Hl]]]]];
      [|discriminate E|].
    + unfold Link_findOne. rewrite Hl, Hnone.
      split; [exact I|]. split; [exact H2|]. left. cbn. auto.
    + subst ph2. pose proof H2 as [Hd _]. unfold Link_findOne.
      rewrite Hl, (find_app_new code ds0 d Hnone Hd).
      split; [left; reflexivity|]. split; [exact H2|].
      right; right. exists d. cbn. auto.
  - (* new Link *)
    pose proof (validate_new_Link code u1 now w Hre Hu) as Hv.
    cbn [new_Link fst snd links] in *.
    split; [repeat split; exact Hv|]. split; [exact H2|].
    destruct H as [[_ [Hp Hl]]|[[d [E _]]|[d [E [_ Hl]]]]];
      [left; cbn; auto|discriminate E|].
    right; right. exists d. cbn. auto.
  - (* save *)
    pose proof H1 as [Hd [Hurl Hv]]. unfold save_new. rewrite Hv, Hd.
    cbn [negb].
    destruct H as [[_ [Hp Hl]]|[[d' [E _]]|[d' [E [_ Hl]]]]];
      [|discriminate E|].
    + rewrite Hl, (find_none_existsb _ _ Hnone). cbn [fst snd links].
      split; [split; assumption|]. split; [exact H2|].
      right; left. exists d. repeat split.
      destruct ph2; cbn in *; auto.
    + subst ph2. pose proof H2 as [Hd' _].
      rewrite Hl, (find_some_existsb code _ d'
                     (find_app_new code ds0 d' Hnone Hd')).
      cbn [fst snd]. split; [right; reflexivity|].
      split; [exact H2|]. right; right. exists d'. cbn. auto.
  - split; [exact H1|]. split; [exact H2|]. exact H.
  - split; [exact H1|]. split; [exact H2|]. exact H.
Qed.

Lemma race_inv_race_step (code u1 : string) (n1 : Date) (u2 : string)
    (n2 : Date) (ds0 : list Link) (i : nat) (s : Phase * Phase) (w : World) :
  CODE_REGEX_test code = true -> u1 <> "" -> u2 <> "" ->
  find (has_code code) ds0 = None ->
  race_inv code u1 u2 ds0 s w ->
  race_inv code u1 u2 ds0 (fst (race_step code u1 n1 u2 n2 i s w))
           (snd (race_step code u1 n1 u2 n2 i s w)).
Proof.
  intros Hre Hu1 Hu2 Hnone Hinv. destruct s as [ph1 ph2].
  unfold race_step. destruct i as [|[|i]]; cbn [fst snd].
  - pose proof (race_inv_step code u1 u2 n1 ds0 ph1 ph2 w Hre Hu1 Hnone Hinv)
      as H.
    destruct (phase_step code u1 n1 ph1 w); exact H.
  - pose proof (race_inv_step code u2 u1 n2 ds0 ph2 ph1 w Hre Hu2 Hnone
                  (race_inv_sym _ _ _ _ _ _ _ Hinv)) as H.
    apply race_inv_sym in H.
    destruct (phase_step code u2 n2 ph2 w); exact H.
  - exact Hinv.
Qed.

Lemma race_inv_race (code u1 : string) (n1 : Date) (u2 : string)
    (n2 : Date) (ds0 : list Link) (schedule : list nat)
    (s : Phase * Phase) (w : World) :
  CODE_REGEX_test code = true -> u1 <> "" -> u2 <> "" ->
  find (has_code code) ds0 = None ->
  race_inv code u1 u2 ds0 s w ->
  race_inv code u1 u2 ds0 (fst (race code u1 n1 u2 n2 schedule s w))
           (snd (race code u1 n1 u2 n2 schedule s w)).
Proof.
  intros Hre Hu1 Hu2 Hnone. revert s w.
  induction schedule as [|i rest IH]; intros s w Hinv; cbn [race];
    [exact Hinv|].
  pose proof (race_inv_race_step code u1 n1 u2 n2 ds0 i s w
                Hre Hu1 Hu2 Hnone Hinv) as H.
  destruct (race_step code u1 n1 u2 n2 i s w) as [s' w']. apply IH, H.
Qed.

(** Every operation brings a call nearer to its end. *)
Lemma phase_step_remaining (code url : string) (now : Date) (ph : Phase)
    (w : World) :
  (remaining (fst (phase_step code url now ph w)) <= remaining ph - 1)%nat.
Proof.
  destruct ph as [| |d|d|e]; cbn [phase_step fst remaining].
  - destruct (Link_findOne code w); cbn; lia.
  - cbn; lia.
  - destruct (save_new d w) as [[u|e] w']; cbn; lia.
  - lia.
  - lia.
Qed.

Lemma race_remaining (code u1 : string) (n1 : Date) (u2 : string)
    (n2 : Date) (schedule : list nat) (s : Phase * Phase) (w : World) :
  (remaining (fst (fst (race code u1 n1 u2 n2 schedule s w)))
   <= remaining (fst s) - turns 0 schedule)%nat
  /\ (remaining (snd (fst (race code u1 n1 u2 n2 schedule s w)))
      <= remaining (snd s) - turns 1 schedule)%nat.
Proof.
  revert s w. induction schedule as [|i rest IH]; intros [ph1 ph2] w;
    cbn [race turns count_occ fst snd]; [lia|].
  unfold race_step. destruct i as [|[|i]]; cbn [fst snd].
  - pose proof (phase_step_remaining code u1 n1 ph1 w) as Hs.
    destruct (phase_step code u1 n1 ph1 w) as [ph1' w'].
    specialize (IH (ph1', ph2) w'). cbn [fst snd] in *.
    unfold turns in *. cbn. lia.
  - pose proof (phase_step_remaining code u2 n2 ph2 w) as Hs.
    destruct (phase_step code u2 n2 ph2 w) as [ph2' w'].
    specialize (IH (ph1, ph2') w'). cbn [fst snd] in *.
    unfold turns in *. cbn. lia.
  - specialize (IH (ph1, ph2) w). cbn [fst snd] in *.
    unfold turns in *. cbn. lia.
Qed.

Lemma finished_create_from (code url : string) (now : Date) (ph : Phase) :
  finished (create_from code url now ph) = true <-> remaining ph = 0%nat.
Proof. destruct ph; cbn; split; intros H; congruence. Qed.

Lemma race_finished (code u1 u2 : string) (ds0 : list Link)
    (s : Phase * Phase) (w : World) :
  find (has_code code) ds0 = None ->
  race_inv code u1 u2 ds0 s w ->
  remaining (fst s) = 0%nat -> remaining (snd s) = 0%nat ->
  exists d e,
    (e = CODE_EXISTS \/ e = DuplicateKey)
    /\ ((s = (Won d, Lost e) /\ originalUrl d = u1)
        \/ (s = (Lost e, Won d) /\ originalUrl d = u2))
    /\ shortCode d = code
    /\ links w = (ds0 ++ [d])%list.
Proof.
  intros Hnone [H1 [H2 H]] Hr1 Hr2. destruct s as [ph1 ph2].
  cbn [fst snd] in *.
  destruct H as [[Hp _]|[[d [E [Hnw Hl]]]|[d [E [Hnw Hl]]]]].
  - destruct ph1; cbn in *; try discriminate; contradiction.
  - subst ph1. destruct ph2 as [| |d2|d2|e]; cbn in *;
      try discriminate; try contradiction.
    exists d, e. intuition.
  - subst ph2. destruct ph1 as [| |d1|d1|e]; cbn in *;
      try discriminate; try contradiction.
    exists d, e. intuition.
Qed.

Section Race.

Variable URL_parses : string -> bool.
Hypothesis URL_parses_nonempty : URL_parses "" = false.

(** C1, as the code has it.  Two [createLink] calls for one well-formed
    code that no document holds, their database operations interleaved in
    any order: once each call has had three turns both have ended; and
    whenever both have ended, exactly one returned its document and the
    other failed, with [CODE_EXISTS] from its own existence check or with
    [DuplicateKey] from the unique index at [save()].  The collection
    gained the winner's document and nothing else, so one document has the
    code and it was never overwritten. *)
Theorem concurrent_creates_one_winner (g1 : string) (n1 : Date)
    (u1 : string) (c1 : option string) (g2 : string) (n2 : Date)
    (u2 : string) (c2 : option string) (code : string)
    (schedule : list nat) (w : World) :
  URL_parses u1 = true -> URL_parses u2 = true ->
  chosen_code g1 c1 = code -> chosen_code g2 c2 = code ->
  CODE_REGEX_test code = true ->
  Link_findOne code w = None ->
  let ps := [createLink URL_parses g1 n1 u1 c1;
             createLink URL_parses g2 n2 u2 c2] in
  ((3 <= turns 0 schedule)%nat -> (3 <= turns 1 schedule)%nat ->
   forallb finished (fst (exec schedule ps w)) = true)
  /\ (forallb finished (fst (exec schedule ps w)) = true ->
      exists d e,
        (e = CODE_EXISTS \/ e = DuplicateKey)
        /\ ((fst (exec schedule ps w) = [Ret d; Throw e]
             /\ originalUrl d = u1)
            \/ (fst (exec schedule ps w) = [Throw e; Ret d]
                /\ originalUrl d = u2))
        /\ shortCode d = code
        /\ links (snd (exec schedule ps w)) = (links w ++ [d])%list
        /\ count_code code (snd (exec schedule ps w)) = 1%nat).
Proof.
  intros Hu1 Hu2 Hc1 Hc2 Hre Hnone ps. subst ps.
  rewrite (createLink_checked URL_parses g1 n1 u1 c1 code Hu1 Hc1 Hre).
  rewrite (createLink_checked URL_parses g2 n2 u2 c2 code Hu2 Hc2 Hre).
  change [create_from code u1 n1 Checking; create_from code u2 n2 Checking]
    with (race_pool code u1 n1 u2 n2 (Checking, Checking)).
  rewrite exec_race. cbn [fst snd].
  pose proof (race_remaining code u1 n1 u2 n2 schedule (Checking, Checking) w)
    as [Hr1 Hr2].
  assert (Hinv0 : race_inv code u1 u2 (links w) (Checking, Checking) w)
    by (unfold race_inv; cbn; intuition).
  pose proof (race_inv_race code u1 n1 u2 n2 (links w) schedule
                (Checking, Checking) w Hre
                (URL_parses_not_empty URL_parses URL_parses_nonempty u1 Hu1)
                (URL_parses_not_empty URL_parses URL_parses_nonempty u2 Hu2)
                Hnone Hinv0) as Hinv.
  destruct (race code u1 n1 u2 n2 schedule (Checking, Checking) w)
    as [[ph1 ph2] w'].
  cbn [fst snd remaining] in *. unfold race_pool; cbn [fst snd forallb].
  split.
  - intros Ht1 Ht2.
    assert (E1 : remaining ph1 = 0%nat) by lia.
    assert (E2 : remaining ph2 = 0%nat) by lia.
    apply (finished_create_from code u1 n1) in E1.
    apply (finished_create_from code u2 n2) in E2.
    rewrite E1, E2. reflexivity.
  - intros Hfin. apply andb_true_iff in Hfin as [F1 F2].
    apply andb_true_iff in F2 as [F2 _].
    apply finished_create_from in F1, F2.
    destruct (race_finished code u1 u2 (links w) (ph1, ph2) w' Hnone Hinv
                F1 F2) as [d [e [He [Hs [Hd Hl]]]]].
    exists d, e. split; [exact He|]. split; [|split; [exact Hd|split]].
    + destruct Hs as [[E Hurl]|[E Hurl]]; injection E as -> ->;
        [left|right]; split; auto.
    + exact Hl.
    + unfold count_code. rewrite Hl. apply count_app_new; assumption.
Qed.

End Race.

(** C1, as stated, fails: two [createLink] calls for ["abc123"] on an empty
    collection, scheduled in alternation, both find the code free; the
    second call's [save()], a later operation, is then refused by the
    unique index.  The existence check and the insert are two operations. *)
Lemma createLink_checks_then_inserts :
  ~ atomic_insert_if_absent "abc123" [0; 1; 0; 1; 0; 1]%nat
      [createLink accepts_http "gen001" 1 "https://a.example" (Some "abc123");
       createLink accepts_http "gen002" 2 "https://b.example" (Some "abc123")]
      empty_world.
Proof.
  intros [_ [_ H]]. apply (H 1%nat).
  exists [(0%nat, EvFindOne "abc123" None); (1%nat, EvFindOne "abc123" None)].
  eexists. exists (mkLink 1%nat "abc123" "https://b.example" 0 None 2).
  exists (Err DuplicateKey).
  split; [reflexivity|]. split; [right; left; reflexivity|].
  split; [|reflexivity].
  do 3 right. left. reflexivity.
Qed.

(** ** Resolutions in flight *)

Lemma redirectLink_wf (now : Date) (code : string) (w : World) :
  wf w -> wf (snd (redirectLink now code w)).
Proof.
  intros Hwf. rewrite redirectLink_found.
  destruct (Link_findOne code w) as [l|] eqn:Hfind; [|exact Hwf].
  destruct (run_incrementClicks now code l w Hwf Hfind)
    as [w' [Hrun [_ [_ [Hup Hoid]]]]].
  rewrite Hrun. cbn [snd]. pose proof (wf_update w _ _ Hwf Hup) as H.
  rewrite <- Hoid in H. destruct w'; exact H.
Qed.

Lemma last_default {B : Type} (x : B) (xs : list B) (a b : B) :
  last (x :: xs) a = last (x :: xs) b.
Proof.
  revert x. induction xs as [|y ys IH]; intros x; [reflexivity|].
  change (last (y :: ys) a = last (y :: ys) b). apply IH.
Qed.

(** Calls that do not overlap are all counted: after one call for each of
    [times], [clicks] has grown by their number and [lastClicked] is the
    time of the last call. *)
Lemma resolve_each_counts (times : list Date) (code : string) (l : Link)
    (w : World) :
  wf w -> Link_findOne code w = Some l ->
  exists l',
    Link_findOne code (resolve_each times code w) = Some l'
    /\ clicks l' = clicks l + Z.of_nat (List.length times)
    /\ lastClicked l' = last (map Some times) (lastClicked l).
Proof.
  revert l w. induction times as [|t rest IH]; intros l w Hwf Hfind.
  - exists l. cbn. repeat split; [exact Hfind | lia].
  - cbn [resolve_each].
    pose proof (redirectLink_wf t code w Hwf) as Hwf'.
    rewrite redirectLink_found, Hfind in *.
    destruct (run_incrementClicks t code l w Hwf Hfind)
      as [w' [Hrun [Hf _]]].
    rewrite Hrun in *. cbn [snd] in *.
    destruct (IH (clicked t l) w' Hwf' Hf) as [l' [Hf' [Hc Hl]]].
    exists l'. split; [exact Hf'|]. split.
    + rewrite Hc. cbn [clicks clicked List.length]. lia.
    + rewrite Hl. cbn [lastClicked clicked map].
      destruct rest as [|d rest]; [reflexivity|].
      cbn [map]. change (last (Some t :: Some d :: map Some rest)
                              (lastClicked l))
        with (last (Some d :: map Some rest) (lastClicked l)).
      apply last_default.
Qed.

(** C2.  Two [redirectLink] calls for a code with [clicks] 0.  Scheduled
    one after the other they leave [clicks] at 2.  Scheduled in
    alternation, each loads the document, each adds one to the value it
    loaded, each saves: both are answered with the redirect, and [clicks]
    ends at 1.  One increment is lost; [lastClicked] is the time of the call
    that saved last. *)
Theorem concurrent_resolves_lose_a_click :
  let ps := [redirectLink_try 10 "abc123"; redirectLink_try 11 "abc123"] in
  Link_findOne "abc123" example_world
  = Some (mkLink 0%nat "abc123" "https://example.com" 0 None 5)
  /\ exec [0; 0; 1; 1]%nat ps example_world
     = ([Ret (Redirect 302 "https://example.com");
         Ret (Redirect 302 "https://example.com")],
        mkWorld [mkLink 0%nat "abc123" "https://example.com" 2 (Some 11) 5]
                1%nat)
  /\ exec [0; 1; 0; 1]%nat ps example_world
     = ([Ret (Redirect 302 "https://example.com");
         Ret (Redirect 302 "https://example.com")],
        mkWorld [mkLink 0%nat "abc123" "https://example.com" 1 (Some 11) 5]
                1%nat).
Proof. repeat split; reflexivity. Qed.

(** C6.  Three [redirectLink] calls for one code: the first loads the
    document, the other two run to their end and bring [clicks] to 2, then
    the first saves what it computed from the value it loaded, and [clicks]
    is back at 1. *)
Theorem stale_save_lowers_clicks :
  let ps := [redirectLink_try 10 "abc123"; redirectLink_try 11 "abc123";
             redirectLink_try 12 "abc123"] in
  snd (exec [0; 1; 1; 2; 2]%nat ps example_world)
  = mkWorld [mkLink 0%nat "abc123" "https://example.com" 2 (Some 12) 5] 1%nat
  /\ snd (exec [0; 1; 1; 2; 2; 0]%nat ps example_world)
     = mkWorld [mkLink 0%nat "abc123" "https://example.com" 1 (Some 10) 5] 1%nat
  /\ fst (exec [0; 1; 1; 2; 2; 0]%nat ps example_world)
     = [Ret (Redirect 302 "https://example.com");
        Ret (Redirect 302 "https://example.com");
        Ret (Redirect 302 "https://example.com")].
Proof. repeat split; reflexivity. Qed.

(** ** The claims on concrete inputs *)

Lemma wf_example_world : wf example_world.
Proof.
  split; cbn.
  - constructor; [intros [] | constructor].
  - constructor; [intros [] | constructor].
  - constructor; [cbn; lia | constructor].
  - constructor; [reflexivity | constructor].
Defined.

(** C3, as stated, fails: with no custom code and the generated code
    ["abc123"] already held, [createLink] does not try another code; the
    caller gets [CODE_EXISTS]. *)
Lemma generated_collision_is_surfaced :
  falsy None = true
  /\ Link_findOne "abc123" example_world = Some example_link
  /\ run (createLink accepts_http "abc123" 6 "https://example.org" None)
         example_world
     = (Err CODE_EXISTS, example_world).
Proof. repeat split; reflexivity. Qed.

Lemma collision_is_not_retried_witness :
  run (createLink accepts_http "abc123" 6 "https://example.org" (Some ""))
      example_world
  = (Err CODE_EXISTS, example_world)
  /\ run (createLink accepts_http "gen456" 6 "https://example.org"
                     (Some "abc123"))
         example_world
     = (Err CODE_EXISTS, example_world).
Proof.
  destruct (collision_is_not_retried accepts_http "abc123" 6
              "https://example.org" example_world example_link eq_refl
              wf_example_world)
    as [Hgen _].
  destruct (collision_is_not_retried accepts_http "gen456" 6
              "https://example.org" example_world example_link eq_refl
              wf_example_world)
    as [_ Hcustom].
  split.
  - apply Hgen; reflexivity.
  - apply Hcustom; reflexivity.
Defined.

(** C5, as stated, fails: the empty string fails the format check, and
    [createLink] with the empty string as custom code does not fail with
    [INVALID_CODE]; it stores the generated code. *)
Lemma empty_custom_code_is_not_rejected :
  CODE_REGEX_test "" = false
  /\ run (createLink accepts_http "gen456" 5 "https://example.com" (Some ""))
         empty_world
     = (OK (mkLink 0%nat "gen456" "https://example.com" 0 None 5),
        mkWorld [mkLink 0%nat "gen456" "https://example.com" 0 None 5] 1%nat).
Proof. split; reflexivity. Qed.

Lemma createLink_rejections_witness :
  run (createLink accepts_http "gen456" 5 "example.com" (Some "abc123"))
      example_world
  = (Err INVALID_URL, example_world)
  /\ run (createLink accepts_http "gen456" 5 "https://example.com"
                     (Some "ab-1"))
         example_world
     = (Err INVALID_CODE, example_world)
  /\ run (createLink accepts_http "gen456" 5 "https://example.com"
                     (Some "abc123"))
         example_world
     = (Err CODE_EXISTS, example_world)
  /\ exists d w1,
       run (createLink accepts_http "gen456" 5 "https://example.com"
                       (Some "xyz789"))
           example_world
       = (OK d, w1)
       /\ run (createLink accepts_http "gen457" 6 "https://example.org"
                          (Some "xyz789"))
              w1
          = (Err CODE_EXISTS, w1)
       /\ count_code "xyz789" w1 = 1%nat.
Proof.
  destruct (createLink_rejections accepts_http eq_refl "gen456" 5
              "example.com" example_world) as [Hurl _].
  destruct (createLink_rejections accepts_http eq_refl "gen456" 5
              "https://example.com" example_world)
    as [_ [Hcode [Htaken Htwice]]].
  split; [|split; [|split]].
  - apply Hurl; reflexivity.
  - apply Hcode; [reflexivity | discriminate | reflexivity].
  - apply (Htaken "abc123" example_link);
      [reflexivity | exact wf_example_world | reflexivity].
  - apply (Htwice "xyz789" "gen457" 6 "https://example.org"); reflexivity.
Defined.

(** C7, as stated, fails: the URL parses, no custom code is given, and
    [createLink] fails, because the generated code is already held. *)
Lemma generated_code_can_be_taken :
  accepts_http "https://example.net" = true
  /\ fst (run (createLink accepts_http "abc123" 9 "https://example.net" None)
              example_world)
     = Err CODE_EXISTS.
Proof. split; reflexivity. Qed.

Lemma createLink_generated_witness :
  (exists d w',
     run (createLink accepts_http "gen456" 9 "https://example.net" None)
         example_world
     = (OK d, w'))
  /\ (forall d w',
      run (createLink accepts_http "gen456" 9 "https://example.net" None)
          example_world
      = (OK d, w') ->
      shortCode d = "gen456"
      /\ (6 <= String.length (shortCode d))%nat
      /\ (String.length (shortCode d) <= 8)%nat
      /\ Forall (fun c => is_alnum c = true)
                (list_ascii_of_string (shortCode d))
      /\ clicks d = 0
      /\ lastClicked d = None
      /\ Link_findOne "gen456" w' = Some d
      /\ links w' = (links example_world ++ [d])%list
      /\ ~ In "gen456" (map shortCode (links example_world)))
  /\ run (createLink accepts_http "abc123" 9 "https://example.net" None)
         example_world
     = (Err CODE_EXISTS, example_world).
Proof.
  destruct (createLink_generated accepts_http eq_refl "gen456" 9
              "https://example.net" example_world eq_refl)
    as [Hok [Hprops _]].
  destruct (createLink_generated accepts_http eq_refl "abc123" 9
              "https://example.net" example_world eq_refl)
    as [_ [_ Hheld]].
  split; [|split].
  - apply Hok; [reflexivity|]. cbn. intros [H|[]]. discriminate H.
  - exact Hprops.
  - apply Hheld; [cbn; left; reflexivity | right; reflexivity].
Defined.

Lemma empty_custom_code_is_absent_witness :
  exists d w',
    run (createLink accepts_http "gen456" 5 "https://example.com" (Some ""))
        example_world
    = (OK d, w')
    /\ shortCode d = "gen456"
    /\ Link_findOne "gen456" w' = Some d.
Proof.
  apply (empty_custom_code_is_absent accepts_http eq_refl "gen456" 5
           "https://example.com" example_world); reflexivity.
Defined.

Lemma create_then_getLinkByCode_witness :
  exists d w',
    run (createLink accepts_http "gen456" 6 "https://example.org"
                    (Some "xyz789"))
        example_world
    = (OK d, w')
    /\ run (getLinkByCode "xyz789") w' = (OK (Some d), w')
    /\ shortCode d = "xyz789"
    /\ originalUrl d = "https://example.org"
    /\ links w' = (links example_world ++ [d])%list.
Proof.
  apply (create_then_getLinkByCode accepts_http eq_refl "gen456" 6
           "https://example.org" "xyz789" example_world);
    [reflexivity | reflexivity |].
  cbn. intros [H|[]]. discriminate H.
Defined.

Lemma resolve_increments_or_not_found_witness :
  (exists w',
     redirectLink 7 "abc123" example_world
     = (Redirect 302 "https://example.com", w')
     /\ run (incrementClicks 7 example_link) example_world
        = (OK (clicked 7 example_link), w')
     /\ Link_findOne "abc123" w' = Some (clicked 7 example_link)
     /\ clicks (clicked 7 example_link) = clicks example_link + 1
     /\ lastClicked (clicked 7 example_link) = Some 7
     /\ forall c', c' <> "abc123" ->
          Link_findOne c' w' = Link_findOne c' example_world)
  /\ redirectLink 7 "nosuch1" example_world
     = (Send 404 "Not Found", example_world).
Proof.
  split.
  - exact (resolve_increments_or_not_found 7 "abc123" example_world
             wf_example_world).
  - exact (resolve_increments_or_not_found 7 "nosuch1" example_world
             wf_example_world).
Defined.

Lemma delete_then_resolve_then_create_witness :
  exists w1,
    run (deleteLink "abc123") example_world = (OK example_link, w1)
    /\ redirectLink 8 "abc123" w1 = (Send 404 "Not Found", w1)
    /\ exists d w2,
         run (createLink accepts_http "gen456" 9 "https://example.org"
                         (Some "abc123"))
             w1
         = (OK d, w2)
         /\ shortCode d = "abc123" /\ originalUrl d = "https://example.org"
         /\ clicks d = 0 /\ lastClicked d = None
         /\ _id d <> _id example_link
         /\ Link_findOne "abc123" w2 = Some d.
Proof.
  apply (delete_then_resolve_then_create accepts_http eq_refl "gen456" 8 9
           "https://example.org" "abc123" example_link example_world
           wf_example_world); reflexivity.
Defined.

Lemma concurrent_creates_one_winner_witness :
  let ps := [createLink accepts_http "gen001" 1 "https://a.example"
                        (Some "abc123");
             createLink accepts_http "abc123" 2 "https://b.example" None] in
  let schedule := [1; 0; 0; 1; 1; 0]%nat in
  forallb finished (fst (exec schedule ps empty_world)) = true
  /\ exists d e,
       (e = CODE_EXISTS \/ e = DuplicateKey)
       /\ ((fst (exec schedule ps empty_world) = [Ret d; Throw e]
            /\ originalUrl d = "https://a.example")
           \/ (fst (exec schedule ps empty_world) = [Throw e; Ret d]
               /\ originalUrl d = "https://b.example"))
       /\ shortCode d = "abc123"
       /\ links (snd (exec schedule ps empty_world))
          = (links empty_world ++ [d])%list
       /\ count_code "abc123" (snd (exec schedule ps empty_world)) = 1%nat.
Proof.
  intros ps schedule.
  destruct (concurrent_creates_one_winner accepts_http eq_refl
              "gen001" 1 "https://a.example" (Some "abc123")
              "abc123" 2 "https://b.example" None
              "abc123" schedule empty_world
              eq_refl eq_refl eq_refl eq_refl eq_refl eq_refl)
    as [Hends Hone].
  split.
  - apply Hends; cbn; lia.
  - apply Hone. reflexivity.
Defined.

(** * Beyond the claims: the handlers and the routes *)

(** ** The JSON handlers, one request at a time *)

Lemma remove_first_absent (code : string) (ds : list Link) :
  find (has_code code) ds = None -> remove_first code ds = ds.
Proof.
  induction ds as [|x ds IH]; cbn [find remove_first]; [reflexivity|].
  destruct (has_code code x); [discriminate|].
  intros H. rewrite (IH H). reflexivity.
Qed.

Lemma remove_first_app_new (code : string) (ds : list Link) (d : Link) :
  find (has_code code) ds = None -> shortCode d = code ->
  remove_first code (ds ++ [d]) = ds.
Proof.
  intros Hnone Hd. induction ds as [|x ds IH]; cbn [find remove_first app] in *.
  - subst code. rewrite has_code_refl. reflexivity.
  - destruct (has_code code x); [discriminate|].
    rewrite (IH Hnone). reflexivity.
Qed.

Lemma remove_first_keeps (code c' : string) (ds : list Link) :
  c' <> code ->
  find (has_code c') (remove_first code ds) = find (has_code c') ds.
Proof.
  intros Hne. induction ds as [|x ds IH]; cbn [find remove_first];
    [reflexivity|].
  destruct (has_code code x) eqn:Hx; cbn [find].
  - destruct (has_code c' x) eqn:Hx'; [|reflexivity].
    apply has_code_true in Hx, Hx'. congruence.
  - rewrite IH. reflexivity.
Qed.

Lemma remove_first_length (code : string) (ds : list Link) (l : Link) :
  find (has_code code) ds = Some l ->
  S (List.length (remove_first code ds)) = List.length ds.
Proof.
  induction ds as [|x ds IH]; cbn [find remove_first List.length];
    [discriminate|].
  destruct (has_code code x); [reflexivity|].
  intros H. cbn [List.length]. rewrite (IH H). reflexivity.
Qed.

Lemma find_unique (ds : list Link) (l : Link) :
  NoDup (map shortCode ds) -> In l ds ->
  find (has_code (shortCode l)) ds = Some l.
Proof.
  induction ds as [|x ds IH]; cbn [map find In]; [contradiction|].
  intros Hnd [->|Hin].
  - rewrite has_code_refl. reflexivity.
  - inversion Hnd as [|? ? Hnotin Hnd']; subst.
    destruct (has_code (shortCode l) x) eqn:Hx.
    + exfalso. apply Hnotin. apply has_code_true in Hx. rewrite Hx.
      apply in_map, Hin.
    + apply IH; assumption.
Qed.

Lemma count_code_le_1 (code : string) (w : World) :
  wf w -> (count_code code w <= 1)%nat.
Proof.
  intros Hwf. pose proof (wf_codes w Hwf) as Hnd. unfold count_code.
  induction (links w) as [|x ds IH]; cbn [filter List.length map] in *;
    [lia|].
  inversion Hnd as [|? ? Hnotin Hnd']; subst.
  destruct (has_code code x) eqn:Hx; [|apply IH, Hnd'].
  cbn [List.length]. apply has_code_true in Hx.
  rewrite (find_none_filter code ds); [cbn; lia|].
  apply not_in_find_none. rewrite <- Hx. exact Hnotin.
Qed.

Section Handlers.

Variable URL_parses : string -> bool.
Hypothesis URL_parses_nonempty : URL_parses "" = false.

(** X1.  [POST /api/links], run alone, is decided by three tests in this
    order: the URL does not parse (400), the chosen code is malformed (400),
    a document holds the code (409); otherwise the answer is 201 with the
    code and the URL, and the collection gains exactly the new document.
    [save()] is never refused, so no other status and no database text is
    ever sent, and the collection changes only with a 201. *)
Theorem createLink_answers (g : string) (now : Date) (url : string)
    (custom : option string) (w : World) :
  LinkController.createLink URL_parses g now url custom w
  = if negb (URL_parses url)
    then (mkReply 400 (JsonError (Text "Invalid URL provided")), w)
    else if negb (CODE_REGEX_test (chosen_code g custom))
    then (mkReply 400 (JsonError (Text "Invalid short code format")), w)
    else match Link_findOne (chosen_code g custom) w with
         | Some _ =>
             (mkReply 409 (JsonError (Text "Short code already exists")), w)
         | None =>
             (mkReply 201 (JsonCreated (chosen_code g custom) url),
              mkWorld (links w ++ [mkLink (next_oid w) (chosen_code g custom)
                                          url 0 None now])
                      (S (next_oid w)))
         end.
Proof.
  unfold LinkController.createLink.
  destruct (URL_parses url) eqn:Hu; cbn [negb].
  - destruct (CODE_REGEX_test (chosen_code g custom)) eqn:Hre; cbn [negb].
    + destruct (Link_findOne (chosen_code g custom) w) as [l|] eqn:Hfind.
      * rewrite (run_createLink_taken URL_parses g now url custom w l);
          auto.
      * rewrite (run_createLink_fresh URL_parses URL_parses_nonempty
                   g now url custom _ w Hu eq_refl Hre Hfind).
        reflexivity.
    + rewrite createLink_invalid_code by assumption. reflexivity.
  - rewrite createLink_invalid_url by assumption. reflexivity.
Qed.

(** X7.  Whatever requests are served one after the other, starting from
    the empty collection, no code is ever held by two documents, and a
    lookup finds a document exactly when one holds the code. *)
Theorem one_document_per_code (rs : list Request) (code : string) :
  (count_code code (perform_all URL_parses rs empty_world) <= 1)%nat
  /\ (count_code code (perform_all URL_parses rs empty_world) = 1%nat
      <-> exists l,
            Link_findOne code (perform_all URL_parses rs empty_world)
            = Some l).
Proof.
  pose proof (reachable_wf URL_parses URL_parses_nonempty rs) as Hwf.
  split; [apply count_code_le_1, Hwf|].
  pose proof (count_code_le_1 code _ Hwf) as Hle.
  unfold count_code, Link_findOne in *.
  destruct (find (has_code code)
              (links (perform_all URL_parses rs empty_world)))
    as [l|] eqn:Hfind.
  - split; [intros _; exists l; reflexivity|]. intros _.
    apply find_some in Hfind as [Hin Hc].
    assert (Hf : In l (filter (has_code code)
                         (links (perform_all URL_parses rs empty_world))))
      by (apply filter_In; split; assumption).
    destruct (filter (has_code code)
                (links (perform_all URL_parses rs empty_world)));
      [contradiction | cbn in *; lia].
  - rewrite (find_none_filter _ _ Hfind). cbn. split; [discriminate|].
    intros [l Hl]. discriminate.
Qed.

End Handlers.

(** ** The guarded routes *)

Lemma GET_links_code_found (code : string) (l : Link) (w : World) :
  wf w -> Link_findOne code w = Some l ->
  GET_links_code code w
  = (Json (mkReply 200 (JsonStats (shortCode l) (originalUrl l) (clicks l)
                                  (lastClicked l))), w).
Proof.
  intros Hwf Hfind. unfold GET_links_code, validateCode.
  rewrite (held_code_well_formed code l w Hwf Hfind). cbn [negb].
  unfold as_json, LinkController.getLinkStats.
  cbn [getLinkByCode run]. rewrite Hfind. reflexivity.
Qed.

(** X2.  [GET /api/links/:code] never changes the collection, and on a
    collection built by the service its answer is decided by the lookup
    first: 200 with the four fields of the document when one holds the
    code; otherwise 404 when the code is well-formed and 400 when it is
    not.  The format guard never hides a stored link. *)
Theorem GET_links_code_answers (code : string) (w : World) :
  wf w ->
  GET_links_code code w
  = (Json match Link_findOne code w with
          | Some l =>
              mkReply 200 (JsonStats (shortCode l) (originalUrl l) (clicks l)
                                     (lastClicked l))
          | None =>
              if CODE_REGEX_test code
              then mkReply 404 (JsonError (Text "Link not found"))
              else mkReply 400 (JsonError (Text "Invalid short code format"))
          end, w).
Proof.
  intros Hwf. destruct (Link_findOne code w) as [l|] eqn:Hfind.
  - apply GET_links_code_found; assumption.
  - unfold GET_links_code, validateCode.
    destruct (CODE_REGEX_test code); cbn [negb]; [|reflexivity].
    unfold as_json, LinkController.getLinkStats.
    cbn [getLinkByCode run]. rewrite Hfind. reflexivity.
Qed.

(** After one [redirectLink] call for each of [times], none overlapping,
    the document is the one there was but for its two counters. *)
Lemma resolve_each_record (times : list Date) (code : string) (l : Link)
    (w : World) :
  wf w -> Link_findOne code w = Some l ->
  wf (resolve_each times code w)
  /\ exists l',
       Link_findOne code (resolve_each times code w) = Some l'
       /\ shortCode l' = shortCode l
       /\ originalUrl l' = originalUrl l
       /\ clicks l' = clicks l + Z.of_nat (List.length times)
       /\ lastClicked l' = last (map Some times) (lastClicked l).
Proof.
  revert l w. induction times as [|t rest IH]; intros l w Hwf Hfind.
  - split; [exact Hwf|]. exists l. cbn. repeat split; [exact Hfind | lia].
  - cbn [resolve_each].
    pose proof (redirectLink_wf t code w Hwf) as Hwf'.
    rewrite redirectLink_found, Hfind in *.
    destruct (run_incrementClicks t code l w Hwf Hfind)
      as [w' [Hrun [Hf _]]].
    rewrite Hrun in *. cbn [snd] in *.
    destruct (IH (clicked t l) w' Hwf' Hf)
      as [Hwf'' [l' [Hf' [Hs [Hu [Hc Hl]]]]]].
    split; [exact Hwf''|]. exists l'. split; [exact Hf'|].
    split; [exact Hs|]. split; [exact Hu|]. split.
    + rewrite Hc. cbn [clicks clicked List.length]. lia.
    + rewrite Hl. cbn [lastClicked clicked map].
      destruct rest as [|d rest]; [reflexivity|].
      cbn [map]. change (last (Some t :: Some d :: map Some rest)
                              (lastClicked l))
        with (last (Some d :: map Some rest) (lastClicked l)).
      apply last_default.
Qed.

(** X3.  Redirects that do not overlap are all reported: after one
    [redirectLink] call at each of [times] for a stored code,
    [GET /api/links/:code] answers 200 with the same code and URL, [clicks]
    grown by the number of calls and [lastClicked] the time of the last
    call. *)
Theorem stats_after_redirects (times : list Date) (code : string) (l : Link)
    (w : World) :
  wf w -> Link_findOne code w = Some l ->
  GET_links_code code (resolve_each times code w)
  = (Json (mkReply 200
             (JsonStats (shortCode l) (originalUrl l)
                        (clicks l + Z.of_nat (List.length times))
                        (last (map Some times) (lastClicked l)))),
     resolve_each times code w).
Proof.
  intros Hwf Hfind.
  destruct (resolve_each_record times code l w Hwf Hfind)
    as [Hwf' [l' [Hf' [Hs [Hu [Hc Hl]]]]]].
  rewrite (GET_links_code_found code l' _ Hwf' Hf').
  rewrite Hs, Hu, Hc, Hl. reflexivity.
Qed.

(** X4.  [DELETE /api/links/:code] for a stored code answers 204 and
    removes that document and no other: the collection has one document
    less, no document holds the code, every other code is looked up as
    before, and a second [DELETE] answers 404 and changes nothing. *)
Theorem DELETE_links_code_once (code : string) (l : Link) (w : World) :
  wf w -> Link_findOne code w = Some l ->
  exists w',
    DELETE_links_code code w = (Json (mkReply 204 NoBody), w')
    /\ wf w'
    /\ S (List.length (links w')) = List.length (links w)
    /\ Link_findOne code w' = None
    /\ (forall c', c' <> code -> Link_findOne c' w' = Link_findOne c' w)
    /\ DELETE_links_code code w'
       = (Json (mkReply 404 (JsonError (Text "Link not found"))), w').
Proof.
  intros Hwf Hfind.
  pose proof (held_code_well_formed code l w Hwf Hfind) as Hre.
  exists (mkWorld (remove_first code (links w)) (next_oid w)).
  assert (Hgone : find (has_code code) (remove_first code (links w)) = None)
    by (apply remove_first_gone, (wf_codes w Hwf)).
  split; [|split; [|split; [|split; [|split]]]].
  - unfold DELETE_links_code, validateCode. rewrite Hre. cbn [negb].
    unfold as_json, LinkController.deleteLink.
    rewrite run_deleteLink, Hfind. reflexivity.
  - apply wf_remove, Hwf.
  - cbn [links]. apply (remove_first_length code (links w) l Hfind).
  - exact Hgone.
  - intros c' Hne. unfold Link_findOne. cbn [links].
    apply remove_first_keeps, Hne.
  - unfold DELETE_links_code, validateCode. rewrite Hre. cbn [negb].
    unfold as_json, LinkController.deleteLink.
    rewrite run_deleteLink. unfold Link_findOne. cbn [links next_oid].
    rewrite Hgone, (remove_first_absent _ _ Hgone). reflexivity.
Qed.

(** X6.  [GET /api/links] answers 200 and changes nothing; on a collection
    built by the service its list has one entry for each stored code and no
    two entries with the same code, and an entry is in the list exactly
    when it is the projection of the document that a lookup of its code
    finds. *)
Theorem getAllLinks_lists_each_code_once (w : World) :
  wf w ->
  LinkController.getAllLinks w = (mkReply 200 (JsonLinks (Link_find w)), w)
  /\ NoDup (map sum_shortCode (Link_find w))
  /\ List.length (Link_find w) = List.length (links w)
  /\ forall s,
       In s (Link_find w)
       <-> exists l,
             Link_findOne (sum_shortCode s) w = Some l /\ project l = s.
Proof.
  intros Hwf. split; [reflexivity|]. unfold Link_find. split; [|split].
  - rewrite map_map. cbn [project sum_shortCode]. apply (wf_codes w Hwf).
  - apply length_map.
  - intros s. split.
    + intros Hin. apply in_map_iff in Hin as [l [<- Hin]].
      exists l. split; [|reflexivity]. cbn [project sum_shortCode].
      apply find_unique; [apply (wf_codes w Hwf) | exact Hin].
    + intros [l [Hfind <-]]. apply in_map.
      apply (find_some_in _ _ _ Hfind).
Qed.

Section RoundTrip.

Variable URL_parses : string -> bool.
Hypothesis URL_parses_nonempty : URL_parses "" = false.

(** X5.  Creating a link with a free code and deleting it again leaves the
    documents of the collection exactly as they were; [deleteLink] returns
    the very document that [createLink] returned. *)
Theorem create_then_delete_restores (g : string) (now : Date)
    (url code : string) (w : World) :
  URL_parses url = true ->
  CODE_REGEX_test code = true ->
  Link_findOne code w = None ->
  exists d w1 w2,
    run (createLink URL_parses g now url (Some code)) w = (OK d, w1)
    /\ run (deleteLink code) w1 = (OK d, w2)
    /\ links w2 = links w.
Proof.
  intros Hu Hre Hnone. eexists; eexists; eexists. split; [|split].
  - apply (run_createLink_fresh URL_parses URL_parses_nonempty
             g now url (Some code) code w); auto.
    apply chosen_code_custom, Hre.
  - rewrite run_deleteLink. unfold Link_findOne. cbn [links].
    rewrite (find_app_new code (links w)
               (mkLink (next_oid w) code url 0 None now) Hnone eq_refl).
    reflexivity.
  - cbn [links]. apply remove_first_app_new; [exact Hnone | reflexivity].
Qed.

End RoundTrip.

(** ** A save that comes after the deletion *)

Lemma update_by_id_absent (u : Link) (ds : list Link) :
  ~ In (_id u) (map _id ds) -> update_by_id u ds = None.
Proof.
  induction ds as [|x ds IH]; cbn [map update_by_id In]; [reflexivity|].
  intros Hn. unfold has_id. destruct (Nat.eqb (_id x) (_id u)) eqn:E.
  - exfalso. apply Hn. left. apply Nat.eqb_eq, E.
  - rewrite IH; [reflexivity|]. intros Hin. apply Hn. right. exact Hin.
Qed.

Lemma remove_first_drops_id (code : string) (ds : list Link) (l : Link) :
  NoDup (map _id ds) -> find (has_code code) ds = Some l ->
  ~ In (_id l) (map _id (remove_first code ds)).
Proof.
  induction ds as [|x ds IH]; cbn [map find remove_first]; [discriminate|].
  intros Hnd Hfind. inversion Hnd as [|? ? Hnotin Hnd']; subst.
  destruct (has_code code x) eqn:Hx.
  - injection Hfind as <-. exact Hnotin.
  - cbn [map In]. intros [E|Hin].
    + apply Hnotin. rewrite E. apply in_map.
      apply (find_some_in _ _ _ Hfind).
    + apply (IH Hnd' Hfind Hin).
Qed.

Section LateSave.

Variable URL_parses : string -> bool.
Hypothesis URL_parses_nonempty : URL_parses "" = false.

(** Once a document is gone its [_id] never comes back, whatever is
    served. *)
Lemma perform_keeps_id_out (r : Request) (i : ObjectId) (w : World) :
  wf w -> (i < next_oid w)%nat -> ~ In i (map _id (links w)) ->
  (i < next_oid (perform URL_parses r w))%nat
  /\ ~ In i (map _id (links (perform URL_parses r w))).
Proof.
  intros Hwf Hlt Hout. destruct r as [g now url custom| |code|now code|code].
  - destruct (perform_Create URL_parses URL_parses_nonempty g now url custom w)
      as [->|[_ [_ ->]]]; [auto|].
    cbn [next_oid links]. split; [lia|].
    rewrite map_app. cbn [map _id]. intros Hin.
    apply in_app_or in Hin as [Hin|[E|[]]]; [auto | lia].
  - auto.
  - auto.
  - destruct (perform_Resolve URL_parses now code w Hwf)
      as [->|[l [_ [Hup Hoid]]]]; [auto|].
    rewrite Hoid. split; [exact Hlt|].
    destruct (update_by_id_maps _ _ _ Hup) as [_ Hids].
    rewrite Hids. exact Hout.
  - unfold perform. rewrite run_deleteLink. cbn [snd next_oid links].
    split; [exact Hlt|]. intros Hin. apply Hout.
    apply in_map_iff in Hin as [x [Hx Hin]]. apply in_map_iff.
    exists x. split; [exact Hx | apply (remove_first_in _ _ _ Hin)].
Qed.

Lemma perform_all_keeps_id_out (rs : list Request) (i : ObjectId)
    (w : World) :
  wf w -> (i < next_oid w)%nat -> ~ In i (map _id (links w)) ->
  ~ In i (map _id (links (perform_all URL_parses rs w))).
Proof.
  revert w. induction rs as [|r rs IH]; cbn [perform_all]; intros w Hwf Hlt Hout;
    [exact Hout|].
  destruct (perform_keeps_id_out r i w Hwf Hlt Hout) as [Hlt' Hout'].
  apply IH; [|exact Hlt'|exact Hout'].
  apply (perform_preserves_wf URL_parses URL_parses_nonempty), Hwf.
Qed.

(** X8.  A [redirectLink] call that has loaded a document which is then
    deleted cannot bring it back: whatever requests are served after the
    deletion, even a new link with the same code, the call's [save()]
    matches no document, the collection is left untouched and the caller is
    answered 500. *)
Theorem late_save_after_delete (rs : list Request) (now : Date)
    (code : string) (l : Link) (w : World) :
  wf w -> Link_findOne code w = Some l ->
  step (redirectLink_try now code) w = (resolve_from now code (Saving l), w)
  /\ forall w2,
       w2 = perform_all URL_parses rs (snd (run (deleteLink code) w)) ->
       run (resolve_from now code (Saving l)) w2 = (Err DocumentNotFound, w2)
       /\ redirectLink_catch
            (fst (run (resolve_from now code (Saving l)) w2))
          = Send 500 "Server error".
Proof.
  intros Hwf Hfind. split.
  - cbn [redirectLink_try getLinkByCode bind step]. rewrite Hfind.
    reflexivity.
  - intros w2 ->. rewrite run_deleteLink. cbn [snd].
    assert (Hrun : forall w', ~ In (_id l) (map _id (links w')) ->
                     run (resolve_from now code (Saving l)) w'
                     = (Err DocumentNotFound, w')).
    { intros w' Hout. cbn [resolve_from incrementClicks bind run].
      unfold save_modified.
      rewrite (update_by_id_absent (clicked now l) (links w') Hout).
      reflexivity. }
    assert (Hout : ~ In (_id l)
                     (map _id (links (perform_all URL_parses rs
                        (mkWorld (remove_first code (links w))
                                 (next_oid w)))))).
    { apply perform_all_keeps_id_out.
      - apply wf_remove, Hwf.
      - cbn [next_oid]. pose proof (wf_fresh w Hwf) as Hf.
        rewrite Forall_forall in Hf. apply Hf.
        apply (find_some_in _ _ _ Hfind).
      - cbn [links]. apply remove_first_drops_id;
          [apply (wf_ids w Hwf) | exact Hfind]. }
    rewrite (Hrun _ Hout). split; reflexivity.
Qed.

End LateSave.

(** ** The health check *)

(** X9.  For an uptime that is not negative, the [uptime] field of the
    health check splits it into whole hours and the whole minutes left:
    the minutes are between 0 and 59, hours and minutes together are the
    whole minutes of the uptime, and less than a minute is dropped. *)
Theorem uptime_hours_and_minutes (uptime : Z) :
  0 <= uptime ->
  0 <= uptimeHours uptime
  /\ 0 <= uptimeMinutes uptime < 60
  /\ uptimeHours uptime * 60 + uptimeMinutes uptime = uptime / 60000
  /\ uptimeHours uptime * 3600000 + uptimeMinutes uptime * 60000 <= uptime
     < uptimeHours uptime * 3600000 + uptimeMinutes uptime * 60000 + 60000.
Proof.
  intros Hpos. unfold uptimeHours, uptimeMinutes.
  change (1000 * 60 * 60) with 3600000. change (1000 * 60) with 60000.
  rewrite Z.rem_mod_nonneg by lia.
  pose proof (Z.div_mod uptime 3600000 ltac:(lia)) as Hq.
  pose proof (Z.mod_pos_bound uptime 3600000 ltac:(lia)) as Hr.
  pose proof (Z.div_mod (uptime mod 3600000) 60000 ltac:(lia)) as Hq2.
  pose proof (Z.mod_pos_bound (uptime mod 3600000) 60000 ltac:(lia)) as Hr2.
  pose proof (Z.div_pos uptime 3600000 Hpos ltac:(lia)) as Hh.
  pose proof (Z.div_pos (uptime mod 3600000) 60000 ltac:(lia) ltac:(lia))
    as Hm.
  split; [exact Hh|]. split; [lia|]. split; [|lia].
  apply (Z.div_unique uptime 60000 _ ((uptime mod 3600000) mod 60000)); lia.
Qed.

(** ** A short code that is also a route *)

Lemma to_lower_alnum (c : ascii) :
  is_lower (to_lower c) = true -> is_alnum c = true.
Proof.
  unfold to_lower, is_alnum. destruct (is_upper c); [reflexivity|].
  intros ->. reflexivity.
Qed.

Lemma lowercase_alnum (s t : string) :
  lowercase s = t ->
  forallb is_lower (list_ascii_of_string t) = true ->
  forallb is_alnum (list_ascii_of_string s) = true
  /\ String.length s = String.length t.
Proof.
  revert t. induction s as [|c s IH]; intros t <-; cbn.
  - intros _. split; reflexivity.
  - intros H. apply andb_true_iff in H as [Hc Hs].
    destruct (IH (lowercase s) eq_refl Hs) as [Ha Hl].
    rewrite (to_lower_alnum c Hc), Ha, Hl. split; reflexivity.
Qed.

(** Every spelling of [healthz] is a well-formed short code. *)
Lemma healthz_is_a_code (segment : string) :
  matches_literal segment "healthz" = true ->
  CODE_REGEX_test segment = true.
Proof.
  unfold matches_literal. intros H. apply String.eqb_eq in H.
  destruct (lowercase_alnum segment "healthz" H eq_refl) as [Ha Hl].
  unfold CODE_REGEX_test. rewrite Ha, Hl. reflexivity.
Qed.

Section Shadow.

Variable URL_parses : string -> bool.
Hypothesis URL_parses_nonempty : URL_parses "" = false.
Variable decodeURIComponent : string -> option string.

(** X10.  [healthz], in any mix of upper and lower case, is accepted as a
    custom code, but its short URL is taken: [GET /healthz] is answered by
    the health check, which is registered first, so the link is not
    followed and no click is counted.  The link is followed through
    [GET /api/links/healthz/redirect]. *)
Theorem healthz_short_link_is_shadowed (g : string) (now1 now2 : Date)
    (uptime : Z) (url segment : string) (w : World) :
  URL_parses url = true ->
  matches_literal segment "healthz" = true ->
  wf w ->
  Link_findOne segment w = None ->
  exists d w1,
    LinkController.createLink URL_parses g now1 url (Some segment) w
    = (mkReply 201 (JsonCreated segment url), w1)
    /\ Link_findOne segment w1 = Some d
    /\ app_GET_segment decodeURIComponent uptime now2 segment w1
       = (Health (uptime_text uptime), w1)
    /\ exists w2,
         GET_redirect now2 segment w1 = (Plain (Redirect 302 url), w2)
         /\ Link_findOne segment w2 = Some (clicked now2 d).
Proof.
  intros Hu Hm Hwf Hnone.
  pose proof (healthz_is_a_code segment Hm) as Hre.
  pose proof (chosen_code_custom g segment Hre) as Hc.
  pose proof (wf_insert w segment url now1 Hwf Hre Hnone) as Hwf1.
  set (d := mkLink (next_oid w) segment url 0 None now1) in *.
  set (w1 := mkWorld (links w ++ [d]) (S (next_oid w))) in *.
  assert (Hfind1 : Link_findOne segment w1 = Some d)
    by (unfold Link_findOne; cbn [links w1]; apply find_app_new; auto).
  exists d, w1. split; [|split; [|split]].
  - unfold LinkController.createLink.
    rewrite (run_createLink_fresh URL_parses URL_parses_nonempty
               g now1 url (Some segment) segment w Hu Hc Hre Hnone).
    reflexivity.
  - exact Hfind1.
  - unfold app_GET_segment. rewrite Hm. reflexivity.
  - destruct (run_incrementClicks now2 segment d w1 Hwf1 Hfind1)
      as [w2 [Hrun [Hf2 _]]].
    exists w2. split; [|exact Hf2].
    unfold GET_redirect, validateCode. rewrite Hre. cbn [negb].
    unfold as_plain. rewrite redirectLink_found, Hfind1, Hrun. reflexivity.
Qed.

End Shadow.

(** ** Two [redirectLink] calls in flight *)

Lemma touch_on (l0 : Link) (k : Z) (t : option Date) (x : Link) :
  has_id (_id l0) x = true ->
  touch l0 k t x
  = mkLink (_id x) (shortCode x) (originalUrl x) k t (createdAt x).
Proof. intros H. unfold touch. rewrite H. reflexivity. Qed.

Lemma touch_off (l0 : Link) (k : Z) (t : option Date) (x : Link) :
  has_id (_id l0) x = false -> touch l0 k t x = x.
Proof. intros H. unfold touch. rewrite H. reflexivity. Qed.

Lemma has_id_refl (l : Link) : has_id (_id l) l = true.
Proof. unfold has_id. apply Nat.eqb_refl. Qed.

Lemma touch_self (l0 : Link) (k : Z) (t : option Date) :
  touch l0 k t l0
  = mkLink (_id l0) (shortCode l0) (originalUrl l0) k t (createdAt l0).
Proof. apply touch_on, has_id_refl. Qed.

Lemma has_code_touch (code : string) (l0 : Link) (k : Z) (t : option Date)
    (x : Link) :
  has_code code (touch l0 k t x) = has_code code x.
Proof. unfold touch. destruct (has_id (_id l0) x); reflexivity. Qed.

Lemma has_id_touch (i : ObjectId) (l0 : Link) (k : Z) (t : option Date)
    (x : Link) :
  has_id i (touch l0 k t x) = has_id i x.
Proof. unfold touch. destruct (has_id (_id l0) x); reflexivity. Qed.

Lemma map_touch_absent (l0 : Link) (k : Z) (t : option Date)
    (ds : list Link) :
  ~ In (_id l0) (map _id ds) -> map (touch l0 k t) ds = ds.
Proof.
  induction ds as [|x ds IH]; cbn [map In]; [reflexivity|]. intros Hn.
  rewrite IH by (intros Hin; apply Hn; right; exact Hin).
  rewrite touch_off; [reflexivity|].
  unfold has_id. apply Nat.eqb_neq. intros E. apply Hn. left. exact E.
Qed.

Lemma map_touch_start (l0 : Link) (ds : list Link) :
  NoDup (map _id ds) -> In l0 ds ->
  map (touch l0 (clicks l0) (lastClicked l0)) ds = ds.
Proof.
  intros Hnd Hin. rewrite <- (map_id ds) at 2. apply map_ext_in.
  intros x Hx. destruct (has_id (_id l0) x) eqn:E.
  - apply Nat.eqb_eq in E.
    rewrite (same_id_same_doc ds l0 x Hnd Hin Hx E).
    rewrite touch_self. destruct l0; reflexivity.
  - apply touch_off, E.
Qed.

Lemma find_touch (code : string) (l0 : Link) (k : Z) (t : option Date)
    (ds : list Link) :
  find (has_code code) ds = Some l0 ->
  find (has_code code) (map (touch l0 k t) ds) = Some (touch l0 k t l0).
Proof.
  induction ds as [|x ds IH]; cbn [map find]; [discriminate|].
  rewrite has_code_touch. destruct (has_code code x).
  - intros H. injection H as ->. reflexivity.
  - exact IH.
Qed.

Lemma find_touch_other (code c' : string) (l0 : Link) (k : Z)
    (t : option Date) (ds : list Link) :
  NoDup (map _id ds) -> In l0 ds -> shortCode l0 = code -> c' <> code ->
  find (has_code c') (map (touch l0 k t) ds) = find (has_code c') ds.
Proof.
  intros Hnd Hin Hc Hne.
  assert (H : forall xs, incl xs ds ->
            find (has_code c') (map (touch l0 k t) xs)
            = find (has_code c') xs).
  { induction xs as [|x xs IH]; intros Hincl; cbn [map find]; [reflexivity|].
    rewrite has_code_touch.
    rewrite IH by (intros y Hy; apply Hincl; right; exact Hy).
    destruct (has_code c' x) eqn:Hx; [|reflexivity].
    destruct (has_id (_id l0) x) eqn:E; [|rewrite touch_off; auto].
    apply Nat.eqb_eq in E.
    assert (Hxin : In x ds) by (apply Hincl; left; reflexivity).
    pose proof (same_id_same_doc ds l0 x Hnd Hin Hxin E) as ->.
    apply has_code_true in Hx. congruence. }
  apply H, incl_refl.
Qed.

(** A save by a call that loaded the document replaces the two counters,
    whatever they were, and nothing else. *)
Lemma update_touch (l0 u : Link) (k : Z) (t : option Date)
    (ds : list Link) :
  NoDup (map _id ds) -> In l0 ds -> _id u = _id l0 ->
  update_by_id u (map (touch l0 k t) ds)
  = Some (map (touch l0 (clicks u) (lastClicked u)) ds).
Proof.
  intros Hnd Hin Hid. induction ds as [|x ds IH];
    cbn [map update_by_id]; [contradiction|].
  inversion Hnd as [|? ? Hnotin Hnd']; subst.
  rewrite Hid, has_id_touch. destruct (has_id (_id l0) x) eqn:E.
  - assert (Hout : ~ In (_id l0) (map _id ds)).
    { apply Nat.eqb_eq in E. rewrite <- E. exact Hnotin. }
    rewrite !(map_touch_absent l0 _ _ ds Hout).
    rewrite !(touch_on l0 _ _ x E). reflexivity.
  - destruct Hin as [->|Hin]; [rewrite has_id_refl in E; discriminate|].
    rewrite (IH Hnd' Hin). rewrite !(touch_off l0 _ _ x E). reflexivity.
Qed.

Lemma step_resolve_from (now : Date) (code : string) (ph : RPhase)
    (w : World) :
  step (resolve_from now code ph) w
  = (resolve_from now code (fst (rphase_step now code ph w)),
     snd (rphase_step now code ph w)).
Proof.
  destruct ph as [|l|r|e];
    cbn [resolve_from redirectLink_try getLinkByCode incrementClicks bind
         step rphase_step fst snd].
  - destruct (Link_findOne code w); reflexivity.
  - destruct (save_modified (clicked now l) w) as [[[]|e] w']; reflexivity.
  - reflexivity.
  - reflexivity.
Qed.

Lemma step_at_resolves (t1 t2 : Date) (code : string) (i : nat)
    (s : RPhase * RPhase) (w : World) :
  step_at i (resolve_pool t1 t2 code s) w
  = (resolve_pool t1 t2 code (fst (resolve_step t1 t2 code i s w)),
     snd (resolve_step t1 t2 code i s w)).
Proof.
  destruct s as [ph1 ph2]. unfold resolve_pool, step_at, resolve_step.
  destruct i as [|[|i]]; cbn [nth_error fst snd].
  - rewrite step_resolve_from.
    destruct (rphase_step t1 code ph1 w); reflexivity.
  - rewrite step_resolve_from.
    destruct (rphase_step t2 code ph2 w); reflexivity.
  - destruct i; reflexivity.
Qed.

Lemma exec_resolves (t1 t2 : Date) (code : string) (schedule : list nat)
    (s : RPhase * RPhase) (w : World) :
  exec schedule (resolve_pool t1 t2 code s) w
  = (resolve_pool t1 t2 code (fst (resolves t1 t2 code schedule s w)),
     snd (resolves t1 t2 code schedule s w)).
Proof.
  revert s w. induction schedule as [|i rest IH]; intros s w;
    cbn [exec resolves]; [reflexivity|].
  rewrite step_at_resolves.
  destruct (resolve_step t1 t2 code i s w) as [s' w']. apply IH.
Qed.

Lemma rphase_step_remaining (now : Date) (code : string) (ph : RPhase)
    (w : World) :
  (rremaining (fst (rphase_step now code ph w)) <= rremaining ph - 1)%nat.
Proof.
  destruct ph as [|l|r|e]; cbn [rphase_step fst rremaining].
  - destruct (Link_findOne code w); cbn; lia.
  - destruct (save_modified (clicked now l) w) as [[u|e] w']; cbn; lia.
  - lia.
  - lia.
Qed.

Lemma resolves_remaining (t1 t2 : Date) (code : string)
    (schedule : list nat) (s : RPhase * RPhase) (w : World) :
  (rremaining (fst (fst (resolves t1 t2 code schedule s w)))
   <= rremaining (fst s) - turns 0 schedule)%nat
  /\ (rremaining (snd (fst (resolves t1 t2 code schedule s w)))
      <= rremaining (snd s) - turns 1 schedule)%nat.
Proof.
  revert s w. induction schedule as [|i rest IH]; intros [ph1 ph2] w;
    cbn [resolves turns count_occ fst snd]; [lia|].
  unfold resolve_step. destruct i as [|[|i]]; cbn [fst snd].
  - pose proof (rphase_step_remaining t1 code ph1 w) as Hs.
    destruct (rphase_step t1 code ph1 w) as [ph1' w'].
    specialize (IH (ph1', ph2) w'). cbn [fst snd] in *.
    unfold turns in *. cbn. lia.
  - pose proof (rphase_step_remaining t2 code ph2 w) as Hs.
    destruct (rphase_step t2 code ph2 w) as [ph2' w'].
    specialize (IH (ph1, ph2') w'). cbn [fst snd] in *.
    unfold turns in *. cbn. lia.
  - specialize (IH (ph1, ph2) w). cbn [fst snd] in *.
    unfold turns in *. cbn. lia.
Qed.

Lemma finished_resolve_from (now : Date) (code : string) (ph : RPhase) :
  finished (resolve_from now code ph) = true <-> rremaining ph = 0%nat.
Proof. destruct ph; cbn; split; intros H; congruence. Qed.

Lemma saves_bounds (s : RPhase * RPhase) : 0 <= saves s <= 2.
Proof. destruct s as [[|?|?|?] [|?|?|?]]; cbn; lia. Qed.

Lemma resolve_inv_sym (l0 : Link) (ds0 : list Link) (t1 t2 : Date)
    (ph1 ph2 : RPhase) (w : World) :
  resolve_inv l0 ds0 t1 t2 (ph1, ph2) w ->
  resolve_inv l0 ds0 t2 t1 (ph2, ph1) w.
Proof.
  unfold resolve_inv. cbn [fst snd].
  assert (E : saves (ph2, ph1) = saves (ph1, ph2))
    by (unfold saves; cbn [fst snd]; lia).
  rewrite E. intros [k [t [Hl [H1 [H2 [Hk [H0 Ht]]]]]]].
  exists k, t. repeat split; try assumption; try lia.
  intros Hpos. destruct (Ht Hpos) as [H|H]; [right|left]; exact H.
Qed.

(** One operation of the first call keeps the invariant. *)
Lemma resolve_inv_step (code : string) (l0 : Link) (ds0 : list Link)
    (t1 t2 : Date) (ph1 ph2 : RPhase) (w : World) :
  NoDup (map _id ds0) ->
  find (has_code code) ds0 = Some l0 ->
  resolve_inv l0 ds0 t1 t2 (ph1, ph2) w ->
  resolve_inv l0 ds0 t1 t2 (fst (rphase_step t1 code ph1 w), ph2)
              (snd (rphase_step t1 code ph1 w)).
Proof.
  intros Hnd Hfind0. destruct (find_some_in _ _ _ Hfind0) as [Hin0 Hcode0].
  unfold resolve_inv. cbn [fst snd].
  intros [k [t [Hl [H1 [H2 [Hk [H0 Ht]]]]]]].
  destruct ph1 as [|l|r|e]; cbn [rphase_step fst snd].
  - (* findOne *)
    unfold Link_findOne. rewrite Hl, (find_touch code l0 k t ds0 Hfind0).
    assert (E : saves (Saving (touch l0 k t l0), ph2) = saves (Loading, ph2))
      by reflexivity.
    rewrite E. exists k, t. repeat split; try assumption; try lia.
    + exists k, t. split; [reflexivity | lia].
    + intros Hpos. destruct (Ht Hpos) as [[_ [r Hr]]|H];
        [discriminate Hr | right; exact H].
  - (* save *)
    destruct H1 as [k' [t' [-> Hk']]].
    unfold save_modified. rewrite Hl.
    rewrite (update_touch l0 (clicked t1 (touch l0 k' t' l0)) k t ds0
               Hnd Hin0)
      by (rewrite touch_self; reflexivity).
    cbn [fst snd links].
    assert (Ec : clicks (clicked t1 (touch l0 k' t' l0)) = k' + 1)
      by (rewrite touch_self; reflexivity).
    assert (Et : lastClicked (clicked t1 (touch l0 k' t' l0)) = Some t1)
      by reflexivity.
    assert (Eu : originalUrl (touch l0 k' t' l0) = originalUrl l0)
      by (rewrite touch_self; reflexivity).
    assert (Es : saves (Answered (Redirect 302
                                    (originalUrl (touch l0 k' t' l0))), ph2)
                 = saves (Saving (touch l0 k' t' l0), ph2) + 1)
      by (unfold saves; cbn [fst snd]; lia).
    pose proof (saves_bounds (Saving (touch l0 k' t' l0), ph2)) as Hb.
    rewrite Ec, Et, Es, Eu.
    exists (k' + 1), (Some t1).
    split; [reflexivity|]. split; [split; [reflexivity | lia]|].
    split; [|split; [lia|split; [lia|]]].
    + destruct ph2 as [|l2|r2|e2]; cbn [rphase_ok] in *.
      * exact I.
      * destruct H2 as [k2 [t2' [E2 Hk2]]].
        exists k2, t2'. split; [exact E2 | lia].
      * destruct H2 as [Hr2 _]. split; [exact Hr2 | lia].
      * exact H2.
    + intros _. left. split; [reflexivity|]. eexists. reflexivity.
  - exists k, t. split; [exact Hl|]. split; [exact H1|].
    split; [exact H2|]. split; [exact Hk|]. split; assumption.
  - destruct H1.
Qed.

Lemma resolve_inv_resolve_step (code : string) (l0 : Link)
    (ds0 : list Link) (t1 t2 : Date) (i : nat) (s : RPhase * RPhase)
    (w : World) :
  NoDup (map _id ds0) ->
  find (has_code code) ds0 = Some l0 ->
  resolve_inv l0 ds0 t1 t2 s w ->
  resolve_inv l0 ds0 t1 t2 (fst (resolve_step t1 t2 code i s w))
              (snd (resolve_step t1 t2 code i s w)).
Proof.
  intros Hnd Hfind Hinv. destruct s as [ph1 ph2].
  unfold resolve_step. destruct i as [|[|i]]; cbn [fst snd].
  - pose proof (resolve_inv_step code l0 ds0 t1 t2 ph1 ph2 w Hnd Hfind Hinv)
      as H.
    destruct (rphase_step t1 code ph1 w); exact H.
  - pose proof (resolve_inv_step code l0 ds0 t2 t1 ph2 ph1 w Hnd Hfind
                  (resolve_inv_sym _ _ _ _ _ _ _ Hinv)) as H.
    apply resolve_inv_sym in H.
    destruct (rphase_step t2 code ph2 w); exact H.
  - exact Hinv.
Qed.

Lemma resolve_inv_resolves (code : string) (l0 : Link) (ds0 : list Link)
    (t1 t2 : Date) (schedule : list nat) (s : RPhase * RPhase) (w : World) :
  NoDup (map _id ds0) ->
  find (has_code code) ds0 = Some l0 ->
  resolve_inv l0 ds0 t1 t2 s w ->
  resolve_inv l0 ds0 t1 t2 (fst (resolves t1 t2 code schedule s w))
              (snd (resolves t1 t2 code schedule s w)).
Proof.
  intros Hnd Hfind. revert s w.
  induction schedule as [|i rest IH]; intros s w Hinv; cbn [resolves];
    [exact Hinv|].
  pose proof (resolve_inv_resolve_step code l0 ds0 t1 t2 i s w Hnd Hfind Hinv)
    as H.
  destruct (resolve_step t1 t2 code i s w) as [s' w']. apply IH, H.
Qed.

(** X11.  Two [redirectLink] calls for one stored code, their operations
    interleaved in any order: after two turns each both have ended; and
    whenever both have ended, both callers were redirected to the URL, the
    stored document kept its code and its URL, its [clicks] grew by one or
    by two, its [lastClicked] is the time of one of the two calls, and no
    other code is affected. *)
Theorem concurrent_redirects_count_one_or_two (t1 t2 : Date) (code : string)
    (l0 : Link) (schedule : list nat) (w : World) :
  wf w ->
  Link_findOne code w = Some l0 ->
  let ps := [redirectLink_try t1 code; redirectLink_try t2 code] in
  ((2 <= turns 0 schedule)%nat -> (2 <= turns 1 schedule)%nat ->
   forallb finished (fst (exec schedule ps w)) = true)
  /\ (forallb finished (fst (exec schedule ps w)) = true ->
      fst (exec schedule ps w)
      = [Ret (Redirect 302 (originalUrl l0));
         Ret (Redirect 302 (originalUrl l0))]
      /\ exists l',
           Link_findOne code (snd (exec schedule ps w)) = Some l'
           /\ shortCode l' = code
           /\ originalUrl l' = originalUrl l0
           /\ (clicks l' = clicks l0 + 1 \/ clicks l' = clicks l0 + 2)
           /\ (lastClicked l' = Some t1 \/ lastClicked l' = Some t2)
           /\ forall c', c' <> code ->
                Link_findOne c' (snd (exec schedule ps w))
                = Link_findOne c' w).
Proof.
  intros Hwf Hfind ps. subst ps.
  pose proof (wf_ids w Hwf) as Hnd.
  destruct (find_some_in _ _ _ Hfind) as [Hin Hcode].
  change [redirectLink_try t1 code; redirectLink_try t2 code]
    with (resolve_pool t1 t2 code (Loading, Loading)).
  rewrite exec_resolves. cbn [fst snd].
  pose proof (resolves_remaining t1 t2 code schedule (Loading, Loading) w)
    as [Hr1 Hr2].
  assert (Hinv0 : resolve_inv l0 (links w) t1 t2 (Loading, Loading) w).
  { exists (clicks l0), (lastClicked l0). cbn [fst snd rphase_ok].
    rewrite (map_touch_start l0 (links w) Hnd Hin).
    repeat split; cbn; try lia. }
  pose proof (resolve_inv_resolves code l0 (links w) t1 t2 schedule
                (Loading, Loading) w Hnd Hfind Hinv0) as Hinv.
  destruct (resolves t1 t2 code schedule (Loading, Loading) w)
    as [[ph1 ph2] w'].
  cbn [fst snd rremaining] in *. unfold resolve_pool; cbn [fst snd forallb].
  split.
  - intros Ht1 Ht2.
    assert (E1 : rremaining ph1 = 0%nat) by lia.
    assert (E2 : rremaining ph2 = 0%nat) by lia.
    apply (finished_resolve_from t1 code) in E1.
    apply (finished_resolve_from t2 code) in E2.
    rewrite E1, E2. reflexivity.
  - intros Hfin. apply andb_true_iff in Hfin as [F1 F2].
    apply andb_true_iff in F2 as [F2 _].
    apply finished_resolve_from in F1, F2.
    destruct Hinv as [k [t [Hl [H1 [H2 [Hk [_ Ht]]]]]]].
    cbn [fst snd] in *.
    destruct ph1 as [|l1|r1|e1]; cbn in F1; try discriminate;
      [|destruct H1].
    destruct ph2 as [|l2|r2|e2]; cbn in F2; try discriminate;
      [|destruct H2].
    cbn [rphase_ok] in H1, H2. destruct H1 as [-> Hk1]. destruct H2 as [-> _].
    assert (Es : saves (Answered (Redirect 302 (originalUrl l0)),
                        Answered (Redirect 302 (originalUrl l0))) = 2)
      by reflexivity.
    rewrite Es in *. split; [reflexivity|].
    exists (touch l0 k t l0). unfold Link_findOne. rewrite Hl.
    split; [apply find_touch, Hfind|]. rewrite touch_self.
    cbn [shortCode originalUrl clicks lastClicked].
    split; [exact Hcode|]. split; [reflexivity|]. split; [lia|].
    split.
    + destruct (Ht ltac:(lia)) as [[E _]|[E _]]; [left|right]; exact E.
    + intros c' Hne. apply find_touch_other with (code := code); assumption.
Qed.

(** ** What the loser of a [createLink] race is answered *)

Lemma checked_step (code url : string) (now : Date) (ph : Phase)
    (w : World) :
  phase_ok code url ph -> checked ph ->
  checked (fst (phase_step code url now ph w)).
Proof.
  destruct ph as [| |d|d|e]; cbn [phase_step fst checked phase_ok].
  - intros _ [].
  - intros _ _. exact I.
  - intros [_ [_ Hv]] _. unfold save_new. rewrite Hv. cbn [negb].
    destruct (existsb (has_code (shortCode d)) (links w)); cbn; auto.
  - intros _ H. exact H.
  - intros _ H. exact H.
Qed.

Lemma race_checked (code u1 : string) (n1 : Date) (u2 : string) (n2 : Date)
    (ds0 : list Link) (schedule : list nat) (s : Phase * Phase) (w : World) :
  CODE_REGEX_test code = true -> u1 <> "" -> u2 <> "" ->
  find (has_code code) ds0 = None ->
  race_inv code u1 u2 ds0 s w ->
  checked (fst s) -> checked (snd s) ->
  checked (fst (fst (race code u1 n1 u2 n2 schedule s w)))
  /\ checked (snd (fst (race code u1 n1 u2 n2 schedule s w))).
Proof.
  intros Hre Hu1 Hu2 Hnone. revert s w.
  induction schedule as [|i rest IH]; intros [ph1 ph2] w Hinv Hc1 Hc2;
    cbn [race]; [split; assumption|].
  pose proof (race_inv_race_step code u1 n1 u2 n2 ds0 i (ph1, ph2) w
                Hre Hu1 Hu2 Hnone Hinv) as Hinv'.
  destruct Hinv as [Hok1 [Hok2 _]]. cbn [fst snd] in *.
  assert (Hc : checked (fst (fst (race_step code u1 n1 u2 n2 i (ph1, ph2) w)))
               /\ checked (snd (fst (race_step code u1 n1 u2 n2 i
                                       (ph1, ph2) w)))).
  { unfold race_step. destruct i as [|[|i]]; cbn [fst snd].
    - pose proof (checked_step code u1 n1 ph1 w Hok1 Hc1) as H.
      destruct (phase_step code u1 n1 ph1 w); split; assumption.
    - pose proof (checked_step code u2 n2 ph2 w Hok2 Hc2) as H.
      destruct (phase_step code u2 n2 ph2 w); split; assumption.
    - split; assumption. }
  destruct (race_step code u1 n1 u2 n2 i (ph1, ph2) w) as [s' w'].
  destruct Hc as [Hc1' Hc2']. apply IH; assumption.
Qed.

Section RaceReply.

Variable URL_parses : string -> bool.
Hypothesis URL_parses_nonempty : URL_parses "" = false.

(** X12.  Two [POST /api/links] for one free code, both existence checks
    made before either [save()]: whenever both have ended, the winner is
    answered 201 with its own URL and the loser 400 with the text of the
    database's duplicate-key error; the loser is not answered 409, because
    [createLink] of the controller recognises only the service's own
    message. *)
Theorem race_loser_is_answered_400 (g1 : string) (n1 : Date) (u1 : string)
    (c1 : option string) (g2 : string) (n2 : Date) (u2 : string)
    (c2 : option string) (code : string) (schedule rest : list nat)
    (w : World) :
  URL_parses u1 = true -> URL_parses u2 = true ->
  chosen_code g1 c1 = code -> chosen_code g2 c2 = code ->
  CODE_REGEX_test code = true ->
  Link_findOne code w = None ->
  schedule = (0 :: 1 :: rest)%nat \/ schedule = (1 :: 0 :: rest)%nat ->
  let ps := [createLink URL_parses g1 n1 u1 c1;
             createLink URL_parses g2 n2 u2 c2] in
  forallb finished (fst (exec schedule ps w)) = true ->
  map (option_map createLink_reply) (map settled (fst (exec schedule ps w)))
  = [Some (mkReply 201 (JsonCreated code u1));
     Some (mkReply 400 (JsonError (DriverText DuplicateKey)))]
  \/ map (option_map createLink_reply)
         (map settled (fst (exec schedule ps w)))
     = [Some (mkReply 400 (JsonError (DriverText DuplicateKey)));
        Some (mkReply 201 (JsonCreated code u2))].
Proof.
  intros Hu1 Hu2 Hc1 Hc2 Hre Hnone Hsched ps. subst ps.
  rewrite (createLink_checked URL_parses g1 n1 u1 c1 code Hu1 Hc1 Hre).
  rewrite (createLink_checked URL_parses g2 n2 u2 c2 code Hu2 Hc2 Hre).
  change [create_from code u1 n1 Checking; create_from code u2 n2 Checking]
    with (race_pool code u1 n1 u2 n2 (Checking, Checking)).
  rewrite exec_race. cbn [fst snd].
  assert (Estart : race code u1 n1 u2 n2 schedule (Checking, Checking) w
                   = race code u1 n1 u2 n2 rest (Building, Building) w).
  { destruct Hsched as [-> | ->];
      cbn [race race_step phase_step fst snd]; rewrite Hnone;
      cbn [race_step phase_step fst snd]; rewrite ?Hnone; reflexivity. }
  rewrite Estart.
  pose proof (URL_parses_not_empty URL_parses URL_parses_nonempty u1 Hu1)
    as Hn1.
  pose proof (URL_parses_not_empty URL_parses URL_parses_nonempty u2 Hu2)
    as Hn2.
  assert (Hinv0 : race_inv code u1 u2 (links w) (Building, Building) w)
    by (unfold race_inv; cbn; intuition).
  pose proof (race_inv_race code u1 n1 u2 n2 (links w) rest
                (Building, Building) w Hre Hn1 Hn2 Hnone Hinv0) as Hinv.
  pose proof (race_checked code u1 n1 u2 n2 (links w) rest
                (Building, Building) w Hre Hn1 Hn2 Hnone Hinv0 I I)
    as [Hk1 Hk2].
  destruct (race code u1 n1 u2 n2 rest (Building, Building) w)
    as [[ph1 ph2] w'].
  cbn [fst snd] in *. unfold race_pool; cbn [fst snd forallb map].
  intros Hfin. apply andb_true_iff in Hfin as [F1 F2].
  apply andb_true_iff in F2 as [F2 _].
  apply finished_create_from in F1, F2.
  destruct (race_finished code u1 u2 (links w) (ph1, ph2) w' Hnone Hinv
              F1 F2) as [d [e [_ [Hs [Hd _]]]]].
  destruct Hs as [[E Hurl]|[E Hurl]]; injection E as -> ->;
    cbn [checked] in *; subst e; [left|right];
    cbn [create_from settled option_map createLink_reply message
         message_is];
    rewrite Hd, Hurl; reflexivity.
Qed.

End RaceReply.

(** ** The handlers and the routes on concrete inputs *)

Lemma createLink_answers_witness :
  LinkController.createLink accepts_http "gen456" 6 "https://example.org"
                            (Some "abc123") example_world
  = (mkReply 409 (JsonError (Text "Short code already exists")),
     example_world)
  /\ LinkController.createLink accepts_http "gen456" 6 "https://example.org"
                               None example_world
     = (mkReply 201 (JsonCreated "gen456" "https://example.org"),
        mkWorld [example_link;
                 mkLink 1%nat "gen456" "https://example.org" 0 None 6]
                2%nat).
Proof.
  split.
  - exact (createLink_answers accepts_http eq_refl "gen456" 6
             "https://example.org" (Some "abc123") example_world).
  - exact (createLink_answers accepts_http eq_refl "gen456" 6
             "https://example.org" None example_world).
Defined.

Lemma GET_links_code_answers_witness :
  GET_links_code "abc123" example_world
  = (Json (mkReply 200 (JsonStats "abc123" "https://example.com" 0 None)),
     example_world)
  /\ GET_links_code "nosuch1" example_world
     = (Json (mkReply 404 (JsonError (Text "Link not found"))),
        example_world)
  /\ GET_links_code "no" example_world
     = (Json (mkReply 400 (JsonError (Text "Invalid short code format"))),
        example_world).
Proof.
  split; [|split].
  - exact (GET_links_code_answers "abc123" example_world wf_example_world).
  - exact (GET_links_code_answers "nosuch1" example_world wf_example_world).
  - exact (GET_links_code_answers "no" example_world wf_example_world).
Defined.

Lemma stats_after_redirects_witness :
  GET_links_code "abc123" (resolve_each [7; 8; 9] "abc123" example_world)
  = (Json (mkReply 200 (JsonStats "abc123" "https://example.com" 3 (Some 9))),
     resolve_each [7; 8; 9] "abc123" example_world).
Proof.
  exact (stats_after_redirects [7; 8; 9] "abc123" example_link example_world
           wf_example_world eq_refl).
Defined.

Lemma DELETE_links_code_once_witness :
  exists w',
    DELETE_links_code "abc123" example_world
    = (Json (mkReply 204 NoBody), w')
    /\ wf w'
    /\ S (List.length (links w')) = List.length (links example_world)
    /\ Link_findOne "abc123" w' = None
    /\ (forall c', c' <> "abc123" ->
          Link_findOne c' w' = Link_findOne c' example_world)
    /\ DELETE_links_code "abc123" w'
       = (Json (mkReply 404 (JsonError (Text "Link not found"))), w').
Proof.
  apply (DELETE_links_code_once "abc123" example_link example_world
           wf_example_world).
  reflexivity.
Defined.

Lemma create_then_delete_restores_witness :
  exists d w1 w2,
    run (createLink accepts_http "gen456" 6 "https://example.org"
                    (Some "xyz789"))
        example_world
    = (OK d, w1)
    /\ run (deleteLink "xyz789") w1 = (OK d, w2)
    /\ links w2 = links example_world.
Proof.
  apply (create_then_delete_restores accepts_http eq_refl "gen456" 6
           "https://example.org" "xyz789" example_world); reflexivity.
Defined.

Lemma getAllLinks_lists_each_code_once_witness :
  LinkController.getAllLinks example_world
  = (mkReply 200 (JsonLinks (Link_find example_world)), example_world)
  /\ NoDup (map sum_shortCode (Link_find example_world))
  /\ List.length (Link_find example_world)
     = List.length (links example_world)
  /\ forall s,
       In s (Link_find example_world)
       <-> exists l,
             Link_findOne (sum_shortCode s) example_world = Some l
             /\ project l = s.
Proof.
  exact (getAllLinks_lists_each_code_once example_world wf_example_world).
Defined.

Lemma one_document_per_code_witness :
  let rs := [Create "gen456" 1 "https://example.com" (Some "abc123");
             Create "abc123" 2 "https://example.org" None;
             Resolve 3 "abc123";
             Delete "abc123";
             Create "gen457" 4 "https://example.net" (Some "abc123")] in
  (count_code "abc123" (perform_all accepts_http rs empty_world) <= 1)%nat
  /\ (count_code "abc123" (perform_all accepts_http rs empty_world) = 1%nat
      <-> exists l,
            Link_findOne "abc123" (perform_all accepts_http rs empty_world)
            = Some l).
Proof.
  intros rs. exact (one_document_per_code accepts_http eq_refl rs "abc123").
Defined.

Lemma late_save_after_delete_witness :
  let rs := [Create "gen456" 8 "https://example.org" (Some "abc123")] in
  step (redirectLink_try 7 "abc123") example_world
  = (resolve_from 7 "abc123" (Saving example_link), example_world)
  /\ forall w2,
       w2 = perform_all accepts_http rs
              (snd (run (deleteLink "abc123") example_world)) ->
       run (resolve_from 7 "abc123" (Saving example_link)) w2
       = (Err DocumentNotFound, w2)
       /\ redirectLink_catch
            (fst (run (resolve_from 7 "abc123" (Saving example_link)) w2))
          = Send 500 "Server error".
Proof.
  intros rs.
  exact (late_save_after_delete accepts_http eq_refl rs 7 "abc123"
           example_link example_world wf_example_world eq_refl).
Defined.

Lemma uptime_hours_and_minutes_witness :
  0 <= uptimeHours 5025000
  /\ 0 <= uptimeMinutes 5025000 < 60
  /\ uptimeHours 5025000 * 60 + uptimeMinutes 5025000 = 5025000 / 60000
  /\ uptimeHours 5025000 * 3600000 + uptimeMinutes 5025000 * 60000
     <= 5025000
     < uptimeHours 5025000 * 3600000 + uptimeMinutes 5025000 * 60000 + 60000.
Proof. apply (uptime_hours_and_minutes 5025000). lia. Defined.

Lemma healthz_short_link_is_shadowed_witness :
  exists d w1,
    LinkController.createLink accepts_http "gen456" 1 "https://example.com"
                              (Some "HealthZ") empty_world
    = (mkReply 201 (JsonCreated "HealthZ" "https://example.com"), w1)
    /\ Link_findOne "HealthZ" w1 = Some d
    /\ app_GET_segment (fun s => Some s) 5025000 2 "HealthZ" w1
       = (Health (uptime_text 5025000), w1)
    /\ exists w2,
         GET_redirect 2 "HealthZ" w1
         = (Plain (Redirect 302 "https://example.com"), w2)
         /\ Link_findOne "HealthZ" w2 = Some (clicked 2 d).
Proof.
  apply (healthz_short_link_is_shadowed accepts_http eq_refl
           (fun s => Some s) "gen456" 1 2 5025000 "https://example.com"
           "HealthZ" empty_world);
    [reflexivity | reflexivity | exact wf_empty | reflexivity].
Defined.

Lemma concurrent_redirects_count_one_or_two_witness :
  let ps := [redirectLink_try 10 "abc123"; redirectLink_try 11 "abc123"] in
  let schedule := [0; 1; 1; 0]%nat in
  forallb finished (fst (exec schedule ps example_world)) = true
  /\ fst (exec schedule ps example_world)
     = [Ret (Redirect 302 (originalUrl example_link));
        Ret (Redirect 302 (originalUrl example_link))]
  /\ exists l',
       Link_findOne "abc123" (snd (exec schedule ps example_world)) = Some l'
       /\ shortCode l' = "abc123"
       /\ originalUrl l' = originalUrl example_link
       /\ (clicks l' = clicks example_link + 1
           \/ clicks l' = clicks example_link + 2)
       /\ (lastClicked l' = Some 10 \/ lastClicked l' = Some 11)
       /\ forall c', c' <> "abc123" ->
            Link_findOne c' (snd (exec schedule ps example_world))
            = Link_findOne c' example_world.
Proof.
  intros ps schedule.
  destruct (concurrent_redirects_count_one_or_two 10 11 "abc123"
              example_link schedule example_world wf_example_world eq_refl)
    as [Hends Hall].
  split.
  - apply Hends; cbn; lia.
  - apply Hall. reflexivity.
Defined.

Lemma race_loser_is_answered_400_witness :
  let ps := [createLink accepts_http "gen001" 1 "https://a.example"
                        (Some "abc123");
             createLink accepts_http "gen002" 2 "https://b.example"
                        (Some "abc123")] in
  let schedule := [1; 0; 0; 1; 0; 1]%nat in
  map (option_map createLink_reply)
      (map settled (fst (exec schedule ps empty_world)))
  = [Some (mkReply 201 (JsonCreated "abc123" "https://a.example"));
     Some (mkReply 400 (JsonError (DriverText DuplicateKey)))]
  \/ map (option_map createLink_reply)
         (map settled (fst (exec schedule ps empty_world)))
     = [Some (mkReply 400 (JsonError (DriverText DuplicateKey)));
        Some (mkReply 201 (JsonCreated "abc123" "https://b.example"))].
Proof.
  intros ps schedule.
  apply (race_loser_is_answered_400 accepts_http eq_refl
           "gen001" 1 "https://a.example" (Some "abc123")
           "gen002" 2 "https://b.example" (Some "abc123")
           "abc123" schedule [0; 1; 0; 1]%nat empty_world);
    try reflexivity.
  right. reflexivity.
Defined.

(** ** Documents over a sequence of requests *)

Section Stable.

Variable URL_parses : string -> bool.
Hypothesis URL_parses_nonempty : URL_parses "" = false.

(** X13.  Whatever requests are served one after the other, a document
    that is still in the collection afterwards, recognised by its [_id],
    has the [shortCode] and the [originalUrl] it had, and its [clicks] is
    not lower. *)
Theorem documents_are_stable (rs : list Request) (w : World) (d d' : Link) :
  wf w -> In d (links w) -> In d' (links (perform_all URL_parses rs w)) ->
  _id d' = _id d ->
  shortCode d' = shortCode d /\ originalUrl d' = originalUrl d
  /\ clicks d <= clicks d'.
Proof.
  revert w d. induction rs as [|r rs IH]; cbn [perform_all];
    intros w d Hwf Hd Hd' Hid.
  - rewrite (same_id_same_doc _ _ _ (wf_ids w Hwf) Hd Hd' Hid).
    repeat split; lia.
  - pose proof (perform_preserves_wf URL_parses URL_parses_nonempty r w Hwf)
      as Hwf1.
    destruct (in_dec Nat.eq_dec (_id d)
                (map _id (links (perform URL_parses r w)))) as [Hin|Hout].
    + apply in_map_iff in Hin as [d1 [Hid1 Hd1]].
      destruct (perform_keeps_documents URL_parses URL_parses_nonempty
                  r w d d1 Hwf Hd Hd1 Hid1) as [Hs1 [Hu1 Hc1]].
      destruct (IH (perform URL_parses r w) d1 Hwf1 Hd1 Hd'
                  ltac:(congruence)) as [Hs [Hu Hc]].
      repeat split; [congruence | congruence | lia].
    + exfalso.
      assert (Hlt : (_id d < next_oid w)%nat).
      { pose proof (wf_fresh w Hwf) as Hf. rewrite Forall_forall in Hf.
        apply Hf, Hd. }
      assert (Hlt1 : (_id d < next_oid (perform URL_parses r w))%nat).
      { destruct r as [g now url custom| |code|now code|code].
        - destruct (perform_Create URL_parses URL_parses_nonempty
                      g now url custom w) as [->|[_ [_ ->]]];
            [exact Hlt | cbn [next_oid]; lia].
        - exact Hlt.
        - exact Hlt.
        - destruct (perform_Resolve URL_parses now code w Hwf)
            as [->|[l [_ [_ ->]]]]; exact Hlt.
        - unfold perform. rewrite run_deleteLink. exact Hlt. }
      apply (perform_all_keeps_id_out URL_parses URL_parses_nonempty rs
               (_id d) (perform URL_parses r w) Hwf1 Hlt1 Hout).
      rewrite <- Hid. apply in_map, Hd'.
Qed.

End Stable.

Lemma documents_are_stable_witness :
  let rs := [Resolve 7 "abc123";
             Create "gen456" 8 "https://example.org" None;
             Resolve 9 "abc123"] in
  let d' := mkLink 0%nat "abc123" "https://example.com" 2 (Some 9) 5 in
  shortCode d' = shortCode example_link
  /\ originalUrl d' = originalUrl example_link
  /\ clicks example_link <= clicks d'.
Proof.
  intros rs d'.
  apply (documents_are_stable accepts_http eq_refl rs example_world
           example_link d' wf_example_world).
  - left. reflexivity.
  - left. reflexivity.
  - reflexivity.
Defined.
